(** * apigateway-audit.py: the API Gateway security audit

    A shallow embedding of [ApiGatewayAuditor] (audit, parse_resource,
    print_audits) and of [main], followed by the properties of the audit
    traversal, the method filter and the three renderings.

    Modelling conventions.
    - The boto3 responses are plain Python data: [value] below.  A dict is
      an association list in insertion order (Python dicts iterate in
      insertion order); only string keys occur in the responses and in the
      report.
    - A Python [str] is a [string] whose characters are code points below
      256.
    - Exceptions are values of [exn]; a computation that may raise returns
      a [result].
    - Standard output is the list of the strings handed to [print], one
      element per call, oldest first.
    - [str], [repr], [json.dumps] and [json.loads] follow CPython on these
      values; floats are not part of the model. *)

From Stdlib Require Import String Ascii List ZArith Bool Lia Arith.
From Stdlib Require Import DecimalString.
From Stdlib Require DecimalZ DecimalPos DecimalFacts.
Import ListNotations.
Local Open Scope list_scope.
Local Open Scope string_scope.

(** ** Python values *)

Set Warnings "-register-all".

Inductive value : Type :=
| VNone
| VBool (b : bool)
| VInt (z : Z)
| VStr (s : string)
| VList (l : list value)
| VDict (d : list (string * value)).

(** Induction on values that reaches the elements of lists and the values
    of dicts. *)
Section value_induction.
Variable P : value -> Prop.
Hypothesis HNone : P VNone.
Hypothesis HBool : forall b, P (VBool b).
Hypothesis HInt : forall z, P (VInt z).
Hypothesis HStr : forall s, P (VStr s).
Hypothesis HList : forall l, Forall P l -> P (VList l).
Hypothesis HDict : forall d, Forall (fun kv => P (snd kv)) d -> P (VDict d).

Fixpoint value_nested_ind (v : value) : P v :=
  match v with
  | VNone => HNone
  | VBool b => HBool b
  | VInt z => HInt z
  | VStr s => HStr s
  | VList l =>
      HList l ((fix go (l : list value) : Forall P l :=
                  match l with
                  | [] => Forall_nil P
                  | x :: l' => Forall_cons x (value_nested_ind x) (go l')
                  end) l)
  | VDict d =>
      HDict d ((fix go (d : list (string * value))
                  : Forall (fun kv => P (snd kv)) d :=
                  match d with
                  | [] => Forall_nil _
                  | (k, x) :: d' =>
                      Forall_cons (k, x) (value_nested_ind x) (go d')
                  end) d)
  end.
End value_induction.

Inductive exn : Type :=
| KeyError (key : string)
| TypeError
| AttributeError
| ClientError (msg : string)
| SystemExit (code : nat).

Inductive result (A : Type) : Type :=
| Ok (a : A)
| Raise (e : exn).
Arguments Ok {A} a.
Arguments Raise {A} e.

Definition bind {A B} (r : result A) (k : A -> result B) : result B :=
  match r with
  | Ok a => k a
  | Raise e => Raise e
  end.

Declare Scope py_scope.
Delimit Scope py_scope with py.
Notation "x <- c ;; k" := (bind c (fun x => k))
  (at level 61, c at next level, right associativity) : py_scope.
Local Open Scope py_scope.

(** A [for] loop whose body may raise: the accumulator is threaded through
    the iterations and the first exception ends the loop. *)
Fixpoint for_each {A B} (body : B -> A -> result B) (xs : list A) (acc : B)
  : result B :=
  match xs with
  | [] => Ok acc
  | x :: xs' => acc' <- body acc x ;; for_each body xs' acc'
  end.

(** Dict lookup by key: the first binding of the key. *)
Fixpoint lookup (k : string) (d : list (string * value)) : option value :=
  match d with
  | [] => None
  | (k', v) :: d' => if String.eqb k k' then Some v else lookup k d'
  end.

(** [v[k]] for a string key [k]: a dict raises KeyError when the key is
    missing; every other type of this model rejects a string subscript
    with TypeError. *)
Definition subscript (v : value) (k : string) : result value :=
  match v with
  | VDict d =>
      match lookup k d with
      | Some x => Ok x
      | None => Raise (KeyError k)
      end
  | _ => Raise TypeError
  end.

Definition is_str (k : string) (v : value) : bool :=
  match v with
  | VStr s => String.eqb k s
  | _ => false
  end.

(** [needle in hay] for strings: substring test. *)
Fixpoint is_substring (needle hay : string) : bool :=
  if String.prefix needle hay then true
  else match hay with
       | EmptyString => false
       | String _ hay' => is_substring needle hay'
       end.

(** [k in v] for a string [k]. *)
Definition contains (k : string) (v : value) : result bool :=
  match v with
  | VDict d => Ok (match lookup k d with Some _ => true | None => false end)
  | VList l => Ok (existsb (is_str k) l)
  | VStr s => Ok (is_substring k s)
  | _ => Raise TypeError
  end.

(** [v.items()]: only dicts have the method. *)
Definition items (v : value) : result (list (string * value)) :=
  match v with
  | VDict d => Ok d
  | _ => Raise AttributeError
  end.

Definition chars (s : string) : list value :=
  map (fun c => VStr (String c EmptyString)) (list_ascii_of_string s).

(** The sequence a [for] statement walks over. *)
Definition iterate (v : value) : result (list value) :=
  match v with
  | VList l => Ok l
  | VDict d => Ok (map (fun kv => VStr (fst kv)) d)
  | VStr s => Ok (chars s)
  | _ => Raise TypeError
  end.

(** [len(v)]. *)
Definition len (v : value) : result nat :=
  match v with
  | VList l => Ok (length l)
  | VDict d => Ok (length d)
  | VStr s => Ok (String.length s)
  | _ => Raise TypeError
  end.

(** Truth value of an object in [if v:]. *)
Definition truthy (v : value) : bool :=
  match v with
  | VNone => false
  | VBool b => b
  | VInt z => negb (Z.eqb z 0)
  | VStr s => match s with EmptyString => false | _ => true end
  | VList l => match l with [] => false | _ => true end
  | VDict d => match d with [] => false | _ => true end
  end.

Definition nonempty {A} (l : list A) : bool :=
  match l with [] => false | _ => true end.

(** ** ApiGatewayAuditor.parse_resource *)

(** [self.methods is None or method in self.methods], where [self.methods]
    is None or the list of strings given with [--methods].  A value that is
    not a str equals no element of such a list. *)
Definition selected (methods : option (list string)) (method : value) : bool :=
  match methods with
  | None => true
  | Some ms => existsb (fun m => is_str m method) ms
  end.

(** One iteration of the loop over [resource['resourceMethods'].items()]. *)
Definition parse_method (methods : option (list string))
    (acc : list value) (kv : string * value) : result (list value) :=
  let value := snd kv in
  method <- subscript value "httpMethod" ;;
  if selected methods method then
    authorization_type <- subscript value "authorizationType" ;;
    api_key_required <- subscript value "apiKeyRequired" ;;
    Ok (acc ++ [VDict [("method", method);
                       ("authorization_type", authorization_type);
                       ("api_key_required", api_key_required)]])%list
  else Ok acc.

Definition parse_resource (methods : option (list string)) (resource : value)
  : result value :=
  path <- subscript resource "path" ;;
  has_methods <- contains "resourceMethods" resource ;;
  parsed <- (if has_methods : bool then
               mapping <- subscript resource "resourceMethods" ;;
               entries <- items mapping ;;
               for_each (parse_method methods) entries []
             else Ok []) ;;
  if nonempty parsed
  then Ok (VDict [("path", path); ("methods", VList parsed)])
  else Ok VNone.

(** ** ApiGatewayAuditor.audit *)

(** The API Gateway client of the auditor: the two calls [audit] makes.
    [get_resources] receives the [restApiId] argument; [embed] is the
    constant [['methods']]. *)
Record client : Type := {
  get_rest_apis : result value;
  get_resources : value -> result value
}.

(** Body of the inner loop: [parse_resource], then append unless None. *)
Definition collect_resource (methods : option (list string))
    (resources : list value) (item : value) : result (list value) :=
  res_dict <- parse_resource methods item ;;
  Ok (match res_dict with
      | VNone => resources
      | _ => (resources ++ [res_dict])%list
      end).

(** Body of the outer loop over the APIs. *)
Definition audit_item (apigw : client) (methods : option (list string))
    (api_audits : list value) (item : value) : result (list value) :=
  api_id <- subscript item "id" ;;
  name <- subscript item "name" ;;
  configuration <- subscript item "endpointConfiguration" ;;
  endpoint_type <- subscript configuration "types" ;;
  let d := [("api_id", api_id); ("name", name);
            ("endpoint_type", endpoint_type)] in
  rescResp <- get_resources apigw api_id ;;
  resc_items <- subscript rescResp "items" ;;
  d' <- (if truthy resc_items then
           seq <- iterate resc_items ;;
           resources <- for_each (collect_resource methods) seq [] ;;
           Ok (if nonempty resources
               then (d ++ [("resources", VList resources)])%list
               else d)
         else Ok d) ;;
  Ok (api_audits ++ [VDict d'])%list.

(** [len(items)] is evaluated for the debug message whatever the log level
    is, so a response whose items have no length raises before the loop. *)
Definition audit (apigw : client) (methods : option (list string))
  : result value :=
  response <- get_rest_apis apigw ;;
  api_items <- subscript response "items" ;;
  _ <- len api_items ;;
  seq <- iterate api_items ;;
  api_audits <- for_each (audit_item apigw methods) seq [] ;;
  Ok (VList api_audits).

(** ** Text forms of values: str(), repr() and json.dumps *)

Definition dquote : ascii := ascii_of_nat 34.
Definition squote : ascii := ascii_of_nat 39.
Definition backslash : ascii := ascii_of_nat 92.

Definition str1 (c : ascii) : string := String c EmptyString.

Definition join (sep : string) (parts : list string) : string :=
  String.concat sep parts.

Definition hex_digit (n : nat) : ascii :=
  match n with
  | 0 => "0" | 1 => "1" | 2 => "2" | 3 => "3" | 4 => "4"
  | 5 => "5" | 6 => "6" | 7 => "7" | 8 => "8" | 9 => "9"
  | 10 => "a" | 11 => "b" | 12 => "c" | 13 => "d" | 14 => "e"
  | _ => "f"
  end%char.

(** The two lower-case hexadecimal digits of a code point below 256. *)
Definition hex2 (c : ascii) : string :=
  let n := nat_of_ascii c in
  String (hex_digit (n / 16)) (String (hex_digit (n mod 16)) EmptyString).

(** [str(n)] of an int. *)
Definition str_int (z : Z) : string := NilZero.string_of_int (Z.to_int z).

Definition has_char (c : ascii) (s : string) : bool :=
  existsb (Ascii.eqb c) (list_ascii_of_string s).

(** [str.isprintable] on code points below 256: the controls, DEL, the C1
    block, the no-break space and the soft hyphen are not printable. *)
Definition printable (c : ascii) : bool :=
  let n := nat_of_ascii c in
  ((32 <=? n) && (n <? 127) || (161 <=? n) && negb (n =? 173))%nat.

(** repr() of a str: single quotes unless the text has a single quote and
    no double quote. *)
Definition repr_quote (s : string) : ascii :=
  if has_char squote s && negb (has_char dquote s) then dquote else squote.

Definition repr_char (quote c : ascii) : string :=
  if Ascii.eqb c quote || Ascii.eqb c backslash then String backslash (str1 c)
  else if Ascii.eqb c (ascii_of_nat 9) then "\t"
  else if Ascii.eqb c (ascii_of_nat 10) then "\n"
  else if Ascii.eqb c (ascii_of_nat 13) then "\r"
  else if printable c then str1 c
  else "\x" ++ hex2 c.

Definition repr_str (s : string) : string :=
  let q := repr_quote s in
  str1 q ++ String.concat EmptyString
              (map (repr_char q) (list_ascii_of_string s)) ++ str1 q.

Fixpoint repr (v : value) : string :=
  match v with
  | VNone => "None"
  | VBool true => "True"
  | VBool false => "False"
  | VInt z => str_int z
  | VStr s => repr_str s
  | VList l => "[" ++ join ", " (map repr l) ++ "]"
  | VDict d =>
      "{" ++ join ", "
               (map (fun kv => match kv with
                               | (k, x) => repr_str k ++ ": " ++ repr x
                               end) d) ++ "}"
  end.

(** [str(v)], which is what an f-string field without a format spec
    inserts. *)
Definition str (v : value) : string :=
  match v with
  | VStr s => s
  | _ => repr v
  end.

(** json.dumps with its defaults: [ensure_ascii] escapes every character
    outside the range space..tilde. *)
Definition json_char (c : ascii) : string :=
  if Ascii.eqb c dquote then String backslash (str1 dquote)
  else if Ascii.eqb c backslash then String backslash (str1 backslash)
  else if Ascii.eqb c (ascii_of_nat 10) then "\n"
  else if Ascii.eqb c (ascii_of_nat 13) then "\r"
  else if Ascii.eqb c (ascii_of_nat 9) then "\t"
  else if Ascii.eqb c (ascii_of_nat 12) then "\f"
  else if Ascii.eqb c (ascii_of_nat 8) then "\b"
  else let n := nat_of_ascii c in
       if ((32 <=? n) && (n <=? 126))%nat then str1 c
       else "\u00" ++ hex2 c.

Definition json_str (s : string) : string :=
  str1 dquote ++ String.concat EmptyString
                   (map json_char (list_ascii_of_string s)) ++ str1 dquote.

(** [json.dumps(v)]: separators [", "] and [": "], keys in dict order. *)
Fixpoint json_dumps (v : value) : string :=
  match v with
  | VNone => "null"
  | VBool true => "true"
  | VBool false => "false"
  | VInt z => str_int z
  | VStr s => json_str s
  | VList [] => "[]"
  | VList l => "[" ++ join ", " (map json_dumps l) ++ "]"
  | VDict [] => "{}"
  | VDict d =>
      "{" ++ join ", "
               (map (fun kv => match kv with
                               | (k, x) => json_str k ++ ": " ++ json_dumps x
                               end) d) ++ "}"
  end.

(** [sorted] on the items of a dict with string keys: by key, in code point
    order. *)
Fixpoint insert_item {A} (kv : string * A) (l : list (string * A))
  : list (string * A) :=
  match l with
  | [] => [kv]
  | kv' :: l' =>
      if String.leb (fst kv) (fst kv') then kv :: l
      else kv' :: insert_item kv l'
  end.

Definition sort_items {A} (l : list (string * A)) : list (string * A) :=
  fold_right insert_item [] l.

Fixpoint spaces (n : nat) : string :=
  match n with
  | O => EmptyString
  | S n' => String " " (spaces n')
  end.

Definition newline : string := str1 (ascii_of_nat 10).

Definition newline_indent (level : nat) : string :=
  newline ++ spaces (4 * level).

(** [json.dumps(v, indent=4, sort_keys=True)] at nesting depth [level]:
    the item separator is [","] followed by a new line. *)
Fixpoint json_dumps_pretty (level : nat) (v : value) : string :=
  match v with
  | VNone => "null"
  | VBool true => "true"
  | VBool false => "false"
  | VInt z => str_int z
  | VStr s => json_str s
  | VList [] => "[]"
  | VList l =>
      "[" ++ newline_indent (S level)
          ++ join ("," ++ newline_indent (S level))
                  (map (json_dumps_pretty (S level)) l)
          ++ newline_indent level ++ "]"
  | VDict [] => "{}"
  | VDict d =>
      "{" ++ newline_indent (S level)
          ++ join ("," ++ newline_indent (S level))
                  (map (fun kv => match kv with
                                  | (k, t) => json_str k ++ ": " ++ t
                                  end)
                     (sort_items
                        (map (fun kv => match kv with
                                        | (k, x) =>
                                            (k, json_dumps_pretty (S level) x)
                                        end) d)))
          ++ newline_indent level ++ "}"
  end.

(** ** Standard output *)

(** A computation that prints: it receives the lines printed so far and
    returns the lines printed when it stops, with its value or the
    exception that stopped it.  What was printed before an exception stays
    printed. *)
Definition io (A : Type) : Type := list string -> list string * result A.

Definition io_ret {A} (a : A) : io A := fun out => (out, Ok a).

Definition io_bind {A B} (m : io A) (k : A -> io B) : io B :=
  fun out =>
    match m out with
    | (out', Ok a) => k a out'
    | (out', Raise e) => (out', Raise e)
    end.

Definition lift {A} (r : result A) : io A := fun out => (out, r).

Definition print (s : string) : io unit :=
  fun out => ((out ++ [s])%list, Ok tt).

Notation "x <~ c ;; k" := (io_bind c (fun x => k))
  (at level 61, c at next level, right associativity) : py_scope.

Fixpoint io_for {A} (body : A -> io unit) (xs : list A) : io unit :=
  match xs with
  | [] => io_ret tt
  | x :: xs' => _ <~ body x ;; io_for body xs'
  end.

(** ** ApiGatewayAuditor.print_audits *)

(** The f-string of the csv branch: the seven subscripts are evaluated from
    left to right and each is inserted with [str]. *)
Definition csv_line (api resource method : value) : result string :=
  name <- subscript api "name" ;;
  api_id <- subscript api "api_id" ;;
  endpoint_type <- subscript api "endpoint_type" ;;
  path <- subscript resource "path" ;;
  verb <- subscript method "method" ;;
  authorization_type <- subscript method "authorization_type" ;;
  api_key_required <- subscript method "api_key_required" ;;
  Ok (str name ++ "," ++ str api_id ++ "," ++ str endpoint_type ++ ","
        ++ str path ++ "," ++ str verb ++ "," ++ str authorization_type
        ++ "," ++ str api_key_required).

Definition print_resource (api resource : value) : io unit :=
  methods <~ lift (subscript resource "methods") ;;
  if truthy methods then
    methods' <~ lift (subscript resource "methods") ;;
    seq <~ lift (iterate methods') ;;
    io_for (fun method => line <~ lift (csv_line api resource method) ;;
                          print line) seq
  else io_ret tt.

Definition print_api (api : value) : io unit :=
  resources <~ lift (subscript api "resources") ;;
  seq <~ lift (iterate resources) ;;
  io_for (print_resource api) seq.

Definition print_audits (format : string) (api_audits : value) : io unit :=
  if String.eqb format "json-pretty" then
    print (json_dumps_pretty 0 api_audits)
  else if String.eqb format "json" then
    print (json_dumps api_audits)
  else
    seq <~ lift (iterate api_audits) ;;
    io_for print_api seq.

(** ** main *)

(** The option values of the command line as argparse receives them. *)
Record arguments : Type := {
  arg_region : option string;
  arg_profile : option string;
  arg_methods : option (list string);
  arg_format : option string;
  arg_debug : bool
}.

Definition format_choices : list string := ["json"; "json-pretty"; "csv"].

(** [parser.parse_args()]: [--methods] has [nargs='+'] and [--format] has
    [choices]; argparse reports a violation and exits with status 2. *)
Definition parse_args (a : arguments) : result arguments :=
  match arg_methods a with
  | Some [] => Raise (SystemExit 2)
  | _ =>
      match arg_format a with
      | Some f =>
          if existsb (String.eqb f) format_choices then Ok a
          else Raise (SystemExit 2)
      | None => Ok a
      end
  end.

(** [main], given the session factory
    [boto3.Session(profile_name, region_name).client('apigateway')]. *)
Definition main (connect : option string -> option string -> result client)
    (a : arguments) : io unit :=
  args <~ lift (parse_args a) ;;
  _ <~ (match arg_region args with
        | None => print "No region specified, attempting to use your default region if configured"
        | Some _ => io_ret tt
        end) ;;
  _ <~ (match arg_profile args with
        | None => print "No AWS profile specified, attempting to use your default profile if configured"
        | Some _ => io_ret tt
        end) ;;
  let format := match arg_format args with
                | None => "json"
                | Some f => f
                end in
  apigw <~ lift (connect (arg_profile args) (arg_region args)) ;;
  api_audits <~ lift (audit apigw (arg_methods args)) ;;
  print_audits format api_audits.

(** ** The data model of the report, and its Python form *)

Record ApiSummary : Type := {
  id : string;
  name : string;
  endpointTypes : list string
}.

(** One entry of [resourceMethods] as API Gateway returns it. *)
Record MethodRaw : Type := {
  httpMethod : string;
  authorizationType : string;
  apiKeyRequired : bool
}.

Record ResourceRaw : Type := {
  path : string;
  resourceMethods : option (list (string * MethodRaw))
}.

(** What the collaborator answers: the APIs, and the resources of each API
    id. *)
Record Snapshot : Type := {
  listApis : list ApiSummary;
  listResources : string -> list ResourceRaw
}.

Record MethodSecurity : Type := {
  ms_httpMethod : string;
  ms_authorizationType : string;
  ms_apiKeyRequired : bool
}.

Record Resource : Type := {
  r_path : string;
  r_methods : list MethodSecurity
}.

Record ApiAudit : Type := {
  apiId : string;
  a_name : string;
  a_endpointTypes : list string;
  resources : option (list Resource)
}.

Definition AuditReport : Type := list ApiAudit.

Definition strings (l : list string) : value := VList (map VStr l).

Definition raw_of_method (m : MethodRaw) : value :=
  VDict [("httpMethod", VStr (httpMethod m));
         ("authorizationType", VStr (authorizationType m));
         ("apiKeyRequired", VBool (apiKeyRequired m))].

Definition raw_of_resource (r : ResourceRaw) : value :=
  match resourceMethods r with
  | None => VDict [("path", VStr (path r))]
  | Some ms =>
      VDict [("path", VStr (path r));
             ("resourceMethods",
              VDict (map (fun kv => (fst kv, raw_of_method (snd kv))) ms))]
  end.

Definition raw_of_api (a : ApiSummary) : value :=
  VDict [("id", VStr (id a)); ("name", VStr (name a));
         ("endpointConfiguration",
          VDict [("types", strings (endpointTypes a))])].

(** The client that answers from a snapshot: a [restApiId] that is not a
    str is refused by the parameter validation of the client. *)
Definition client_of (s : Snapshot) : client :=
  {| get_rest_apis := Ok (VDict [("items", VList (map raw_of_api (listApis s)))]);
     get_resources := fun api_id =>
       match api_id with
       | VStr i => Ok (VDict [("items",
                               VList (map raw_of_resource (listResources s i)))])
       | _ => Raise (ClientError "ParamValidationError")
       end |}.

Definition value_of_method (m : MethodSecurity) : value :=
  VDict [("method", VStr (ms_httpMethod m));
         ("authorization_type", VStr (ms_authorizationType m));
         ("api_key_required", VBool (ms_apiKeyRequired m))].

Definition value_of_resource (r : Resource) : value :=
  VDict [("path", VStr (r_path r));
         ("methods", VList (map value_of_method (r_methods r)))].

Definition value_of_audit (a : ApiAudit) : value :=
  VDict ([("api_id", VStr (apiId a)); ("name", VStr (a_name a));
          ("endpoint_type", strings (a_endpointTypes a))]
           ++ match resources a with
              | None => []
              | Some rs => [("resources", VList (map value_of_resource rs))]
              end)%list.

Definition value_of_report (r : AuditReport) : value :=
  VList (map value_of_audit r).

(** ** Scenario A of the specification *)

Definition shop : ApiSummary :=
  {| id := "a1"; name := "Shop"; endpointTypes := ["REGIONAL"] |}.

Definition items_resource : ResourceRaw :=
  {| path := "/items";
     resourceMethods :=
       Some [("GET", {| httpMethod := "GET"; authorizationType := "NONE";
                        apiKeyRequired := false |});
             ("POST", {| httpMethod := "POST"; authorizationType := "AWS_IAM";
                         apiKeyRequired := true |})] |}.

Definition scenario_a : Snapshot :=
  {| listApis := [shop];
     listResources := fun i => if String.eqb i "a1" then [items_resource] else [] |}.

Definition run {A} (m : io A) : list string * result A := m [].

(** ** The parser and the collector on the data model

    [ResourceParser] and [AuditCollector] as the specification describes
    them, on the typed records: a filter over the method entries, a
    filtering map over the resources, a map over the APIs.  The selection
    test is a parameter, so that the parser can be instantiated with the
    test the code makes and with the one the specification words. *)

(** The test of the code: no filter, or the verb is an element of it. *)
Definition member (methods : option (list string)) (verb : string) : bool :=
  match methods with
  | None => true
  | Some ms => existsb (fun m => String.eqb m verb) ms
  end.

(** The test as the specification words it: the filter is empty or unset,
    or the verb is an element of it. *)
Definition spec_member (methods : option (list string)) (verb : string)
  : bool :=
  match methods with
  | None => true
  | Some [] => true
  | Some ms => existsb (fun m => String.eqb m verb) ms
  end.

Definition secure (m : MethodRaw) : MethodSecurity :=
  {| ms_httpMethod := httpMethod m;
     ms_authorizationType := authorizationType m;
     ms_apiKeyRequired := apiKeyRequired m |}.

Definition entries (r : ResourceRaw) : list (string * MethodRaw) :=
  match resourceMethods r with
  | None => []
  | Some ms => ms
  end.

Definition kept (sel : string -> bool) (r : ResourceRaw)
  : list MethodSecurity :=
  map secure (filter (fun m => sel (httpMethod m)) (map snd (entries r))).

Definition parse_with (sel : string -> bool) (r : ResourceRaw)
  : option Resource :=
  match kept sel r with
  | [] => None
  | ms => Some {| r_path := path r; r_methods := ms |}
  end.

Definition parse (methods : option (list string)) : ResourceRaw -> option Resource :=
  parse_with (member methods).

Fixpoint keep_some {A B} (f : A -> option B) (l : list A) : list B :=
  match l with
  | [] => []
  | x :: l' =>
      match f x with
      | Some y => y :: keep_some f l'
      | None => keep_some f l'
      end
  end.

Definition surviving (methods : option (list string)) (s : Snapshot)
    (a : ApiSummary) : list Resource :=
  keep_some (parse methods) (listResources s (id a)).

Definition audit_of (methods : option (list string)) (s : Snapshot)
    (a : ApiSummary) : ApiAudit :=
  {| apiId := id a;
     a_name := name a;
     a_endpointTypes := endpointTypes a;
     resources := match surviving methods s a with
                  | [] => None
                  | rs => Some rs
                  end |}.

Definition report_of (methods : option (list string)) (s : Snapshot)
  : AuditReport :=
  map (audit_of methods s) (listApis s).

Definition value_of_parse (o : option Resource) : value :=
  match o with
  | None => VNone
  | Some r => value_of_resource r
  end.

(** The methods list of a parse result, empty for None. *)
Definition methods_of (out : value) : list value :=
  match out with
  | VDict d =>
      match lookup "methods" d with
      | Some (VList l) => l
      | _ => []
      end
  | _ => []
  end.

(** ** The tabular rendering on the data model *)

Definition csv_row (a : ApiAudit) (r : Resource) (m : MethodSecurity)
  : string :=
  a_name a ++ "," ++ apiId a ++ "," ++ repr (strings (a_endpointTypes a))
    ++ "," ++ r_path r ++ "," ++ ms_httpMethod m ++ ","
    ++ ms_authorizationType m ++ ","
    ++ (if ms_apiKeyRequired m then "True" else "False").

Definition csv_rows_of_resource (a : ApiAudit) (r : Resource) : list string :=
  map (csv_row a r) (r_methods r).

Definition csv_rows_of_audit (a : ApiAudit) : list string :=
  match resources a with
  | None => []
  | Some rs => flat_map (csv_rows_of_resource a) rs
  end.

Definition csv_rows (r : AuditReport) : list string :=
  flat_map csv_rows_of_audit r.

(** The resource of scenario A with its GET method only (scenario B). *)
Definition get_only : ResourceRaw :=
  {| path := "/items";
     resourceMethods :=
       Some [("GET", {| httpMethod := "GET"; authorizationType := "NONE";
                        apiKeyRequired := false |})] |}.

(** A resource as the provider would never send it: its GET entry lacks
    both security attributes, its POST entry is complete. *)
Definition broken_methods : list (string * value) :=
  [("GET", VDict [("httpMethod", VStr "GET")]);
   ("POST", VDict [("httpMethod", VStr "POST");
                   ("authorizationType", VStr "AWS_IAM");
                   ("apiKeyRequired", VBool true)])].

Definition broken_fields : list (string * value) :=
  [("path", VStr "/items"); ("resourceMethods", VDict broken_methods)].

Definition broken_get : value := VDict broken_fields.

(** The client of one API, Shop, whose only resource is [broken_get]. *)
Definition broken_client : client :=
  {| get_rest_apis := Ok (VDict [("items", VList [raw_of_api shop])]);
     get_resources := fun _ => Ok (VDict [("items", VList [broken_get])]) |}.

(** The report of scenario A, and an ApiAudit without resources
    (scenarios C and D). *)
Definition shop_audit : ApiAudit := audit_of None scenario_a shop.

Definition bare_audit : ApiAudit :=
  {| apiId := "b2"; a_name := "Empty"; a_endpointTypes := ["EDGE"];
     resources := None |}.

(** ** json.loads

    The decoder of the json module on the values of this model: numbers
    with a fraction or an exponent, NaN and the infinities, and escapes of
    code points from 256 on are outside the model and are refused.  [None]
    stands for JSONDecodeError. *)

Definition is_ws (c : ascii) : bool :=
  Ascii.eqb c " " || Ascii.eqb c (ascii_of_nat 9)
  || Ascii.eqb c (ascii_of_nat 10) || Ascii.eqb c (ascii_of_nat 13).

Fixpoint skip_ws (s : string) : string :=
  match s with
  | String c r => if is_ws c then skip_ws r else s
  | EmptyString => s
  end.

Definition is_digit (c : ascii) : bool :=
  let n := nat_of_ascii c in ((48 <=? n) && (n <=? 57))%nat.

Definition hex_value (c : ascii) : option nat :=
  let n := nat_of_ascii c in
  if ((48 <=? n) && (n <=? 57))%nat then Some (n - 48)
  else if ((97 <=? n) && (n <=? 102))%nat then Some (n - 87)
  else if ((65 <=? n) && (n <=? 70))%nat then Some (n - 55)
  else None.

Definition hex4 (a b c d : ascii) : option nat :=
  match hex_value a, hex_value b, hex_value c, hex_value d with
  | Some x, Some y, Some z, Some w => Some (((x * 16 + y) * 16 + z) * 16 + w)
  | _, _, _, _ => None
  end.

(** The character a backslash escape other than [\u] stands for. *)
Definition unescape (e : ascii) : option ascii :=
  if Ascii.eqb e dquote then Some dquote
  else if Ascii.eqb e backslash then Some backslash
  else if Ascii.eqb e "/" then Some "/"%char
  else if Ascii.eqb e "b" then Some (ascii_of_nat 8)
  else if Ascii.eqb e "f" then Some (ascii_of_nat 12)
  else if Ascii.eqb e "n" then Some (ascii_of_nat 10)
  else if Ascii.eqb e "r" then Some (ascii_of_nat 13)
  else if Ascii.eqb e "t" then Some (ascii_of_nat 9)
  else None.

Definition push (c : ascii) (r : option (string * string))
  : option (string * string) :=
  match r with
  | Some (t, rest) => Some (String c t, rest)
  | None => None
  end.

(** [scanstring] in strict mode, from the character after the opening
    quote: the text up to the closing quote, and what follows it. *)
Fixpoint scan_string (s : string) : option (string * string) :=
  match s with
  | EmptyString => None
  | String c r =>
      if Ascii.eqb c dquote then Some (EmptyString, r)
      else if Ascii.eqb c backslash then
        match r with
        | EmptyString => None
        | String e r1 =>
            if Ascii.eqb e "u" then
              match r1 with
              | String h1 (String h2 (String h3 (String h4 r2))) =>
                  match hex4 h1 h2 h3 h4 with
                  | Some n =>
                      if (n <? 256)%nat then push (ascii_of_nat n) (scan_string r2)
                      else None
                  | None => None
                  end
              | _ => None
              end
            else
              match unescape e with
              | Some c' => push c' (scan_string r1)
              | None => None
              end
        end
      else if (nat_of_ascii c <? 32)%nat then None
      else push c (scan_string r)
  end.

Fixpoint take_digits (s : string) : string * string :=
  match s with
  | String c r =>
      if is_digit c then let (ds, rest) := take_digits r in (String c ds, rest)
      else (EmptyString, s)
  | EmptyString => (EmptyString, s)
  end.

(** Whether the text after an integer part continues the number with a
    fraction or an exponent, which makes it a float. *)
Definition float_tail (s : string) : bool :=
  match s with
  | String c (String d r) =>
      (Ascii.eqb c "." && is_digit d)
      || ((Ascii.eqb c "e" || Ascii.eqb c "E")
          && (is_digit d
              || ((Ascii.eqb d "+" || Ascii.eqb d "-")
                  && match r with
                     | String d' _ => is_digit d'
                     | EmptyString => false
                     end)))
  | _ => false
  end.

(** The integer part at the head of the text, after the sign: a single 0,
    or a non-zero digit and the digits that follow it. *)
Definition integer_part (s : string) : option (string * string) :=
  match s with
  | String c r =>
      if Ascii.eqb c "0" then Some ("0", r)
      else if is_digit c then
        let (ds, rest) := take_digits r in Some (String c ds, rest)
      else None
  | EmptyString => None
  end.

(** [match_number] for integers: an optional minus sign and the integer
    part, converted with [int]. *)
Definition scan_number (s : string) : option (value * string) :=
  let signed := match s with
                | String c r => if Ascii.eqb c "-" then Some r else None
                | EmptyString => None
                end in
  match integer_part (match signed with Some r => r | None => s end) with
  | Some (ds, rest) =>
      if float_tail rest then None
      else
        match NilZero.int_of_string
                (match signed with Some _ => String "-" ds | None => ds end) with
        | Some d => Some (VInt (Z.of_int d), rest)
        | None => None
        end
  | None => None
  end.

(** The text after the prefix [p], when the text starts with it. *)
Fixpoint strip_prefix (p s : string) : option string :=
  match p with
  | EmptyString => Some s
  | String a p' =>
      match s with
      | String b s' => if Ascii.eqb a b then strip_prefix p' s' else None
      | EmptyString => None
      end
  end.

(** [d[k] = v] on a dict: a key that is present keeps its place. *)
Fixpoint dict_set (k : string) (v : value) (d : list (string * value))
  : list (string * value) :=
  match d with
  | [] => [(k, v)]
  | (k', v') :: d' =>
      if String.eqb k k' then (k, v) :: d' else (k', v') :: dict_set k v d'
  end.

(** [dict(pairs)]. *)
Definition dict_of_pairs (pairs : list (string * value))
  : list (string * value) :=
  fold_left (fun d kv => dict_set (fst kv) (snd kv) d) pairs [].

(** The loop of JSONArray, from the first value on: [scan] decodes a value,
    [k] bounds the number of values. *)
Fixpoint scan_elements (scan : string -> option (value * string))
    (k : nat) (s : string) : option (list value * string) :=
  match k with
  | O => None
  | S k' =>
      match scan s with
      | Some (v, r) =>
          match skip_ws r with
          | String c r1 =>
              if Ascii.eqb c "]" then Some ([v], r1)
              else if Ascii.eqb c "," then
                match scan_elements scan k' (skip_ws r1) with
                | Some (vs, r2) => Some (v :: vs, r2)
                | None => None
                end
              else None
          | EmptyString => None
          end
      | None => None
      end
  end.

(** The loop of JSONObject, from the opening quote of the first key on. *)
Fixpoint scan_members (scan : string -> option (value * string))
    (k : nat) (s : string) : option (list (string * value) * string) :=
  match k with
  | O => None
  | S k' =>
      match s with
      | String q r =>
          if Ascii.eqb q dquote then
            match scan_string r with
            | Some (key, r1) =>
                match skip_ws r1 with
                | String c r2 =>
                    if Ascii.eqb c ":" then
                      match scan (skip_ws r2) with
                      | Some (v, r3) =>
                          match skip_ws r3 with
                          | String c' r4 =>
                              if Ascii.eqb c' "}" then Some ([(key, v)], r4)
                              else if Ascii.eqb c' "," then
                                match scan_members scan k' (skip_ws r4) with
                                | Some (ps, r5) => Some ((key, v) :: ps, r5)
                                | None => None
                                end
                              else None
                          | EmptyString => None
                          end
                      | None => None
                      end
                    else None
                | EmptyString => None
                end
            | None => None
            end
          else None
      | EmptyString => None
      end
  end.

(** [scan_once]: the value at the head of the text and what follows it.
    [depth] bounds the nesting; the loops are bounded by the length of
    the text they start from, one value taking at least one character. *)
Fixpoint scan_once (depth : nat) (s : string) : option (value * string) :=
  match depth with
  | O => None
  | S depth' =>
      match s with
      | EmptyString => None
      | String c r =>
          if Ascii.eqb c dquote then
            match scan_string r with
            | Some (t, rest) => Some (VStr t, rest)
            | None => None
            end
          else if Ascii.eqb c "{" then
            match skip_ws r with
            | EmptyString => None
            | String c' r1 as body =>
                if Ascii.eqb c' "}" then Some (VDict [], r1)
                else
                  match scan_members (scan_once depth')
                          (String.length body) body with
                  | Some (ps, rest) => Some (VDict (dict_of_pairs ps), rest)
                  | None => None
                  end
            end
          else if Ascii.eqb c "[" then
            match skip_ws r with
            | EmptyString => None
            | String c' r1 as body =>
                if Ascii.eqb c' "]" then Some (VList [], r1)
                else
                  match scan_elements (scan_once depth')
                          (String.length body) body with
                  | Some (vs, rest) => Some (VList vs, rest)
                  | None => None
                  end
            end
          else
            match strip_prefix "null" s with
            | Some rest => Some (VNone, rest)
            | None =>
                match strip_prefix "true" s with
                | Some rest => Some (VBool true, rest)
                | None =>
                    match strip_prefix "false" s with
                    | Some rest => Some (VBool false, rest)
                    | None => scan_number s
                    end
                end
            end
      end
  end.

(** [json.loads(s)]: white space, one value, white space, end of text.  The
    nesting of a text is below its length. *)
Definition json_loads (s : string) : option value :=
  match scan_once (S (String.length s)) (skip_ws s) with
  | Some (v, rest) =>
      match skip_ws rest with
      | EmptyString => Some v
      | _ => None
      end
  | None => None
  end.

(** ** Reading a report back

    The records are read by key, so the order of the keys in a dict does
    not matter. *)

Fixpoint all_some {A} (l : list (option A)) : option (list A) :=
  match l with
  | [] => Some []
  | Some x :: l' =>
      match all_some l' with
      | Some xs => Some (x :: xs)
      | None => None
      end
  | None :: _ => None
  end.

Definition string_of_value (v : value) : option string :=
  match v with
  | VStr s => Some s
  | _ => None
  end.

Definition list_of_value {A} (f : value -> option A) (v : value)
  : option (list A) :=
  match v with
  | VList l => all_some (map f l)
  | _ => None
  end.

Definition method_of_value (v : value) : option MethodSecurity :=
  match v with
  | VDict d =>
      match lookup "method" d, lookup "authorization_type" d,
            lookup "api_key_required" d with
      | Some (VStr m), Some (VStr a), Some (VBool k) =>
          Some {| ms_httpMethod := m; ms_authorizationType := a;
                  ms_apiKeyRequired := k |}
      | _, _, _ => None
      end
  | _ => None
  end.

Definition resource_of_value (v : value) : option Resource :=
  match v with
  | VDict d =>
      match lookup "path" d, lookup "methods" d with
      | Some (VStr p), Some ms =>
          match list_of_value method_of_value ms with
          | Some l => Some {| r_path := p; r_methods := l |}
          | None => None
          end
      | _, _ => None
      end
  | _ => None
  end.

Definition audit_of_value (v : value) : option ApiAudit :=
  match v with
  | VDict d =>
      match lookup "api_id" d, lookup "name" d, lookup "endpoint_type" d with
      | Some (VStr i), Some (VStr n), Some ts =>
          match list_of_value string_of_value ts with
          | Some types =>
              match lookup "resources" d with
              | None =>
                  Some {| apiId := i; a_name := n; a_endpointTypes := types;
                          resources := None |}
              | Some rs =>
                  match list_of_value resource_of_value rs with
                  | Some l =>
                      Some {| apiId := i; a_name := n;
                              a_endpointTypes := types; resources := Some l |}
                  | None => None
                  end
              end
          | None => None
          end
      | _, _, _ => None
      end
  | _ => None
  end.

Definition report_of_value (v : value) : option AuditReport :=
  list_of_value audit_of_value v.

(** ** Values that are Python dicts all the way down: distinct keys *)

Fixpoint distinct (l : list string) : bool :=
  match l with
  | [] => true
  | x :: l' => negb (existsb (String.eqb x) l') && distinct l'
  end.

Fixpoint proper (v : value) : bool :=
  match v with
  | VList l => forallb proper l
  | VDict d =>
      distinct (map fst d)
      && forallb (fun kv => match kv with (_, x) => proper x end) d
  | _ => true
  end.

(** What may follow a value inside a JSON text or at its end. *)
Definition delimited (rest : string) : bool :=
  match rest with
  | EmptyString => true
  | String c _ => Ascii.eqb c "," || Ascii.eqb c "]" || Ascii.eqb c "}"
  end.

(** The number of methods an ApiAudit holds. *)
Definition methods_in_audit (a : ApiAudit) : nat :=
  match resources a with
  | None => 0
  | Some rs => list_sum (map (fun x => length (r_methods x)) rs)
  end.

(** An ApiAudit whose name holds a comma. *)
Definition comma_audit : ApiAudit :=
  {| apiId := "a1"; a_name := "Shop, Inc.";
     a_endpointTypes := ["REGIONAL"; "EDGE"];
     resources :=
       Some [{| r_path := "/items";
                r_methods := [{| ms_httpMethod := "GET";
                                 ms_authorizationType := "NONE";
                                 ms_apiKeyRequired := false |}] |}] |}.

(** ** The shape of a report

    What [audit] builds, whatever the collaborator answered: the keys of
    each dict, in order, and lists that are present only when they have an
    element.  The values under api_id, name, endpoint_type, path and the
    three method keys are the collaborator's and are not constrained. *)

Definition shaped_method (v : value) : bool :=
  match v with
  | VDict [(k1, _); (k2, _); (k3, _)] =>
      String.eqb k1 "method" && String.eqb k2 "authorization_type"
      && String.eqb k3 "api_key_required"
  | _ => false
  end.

Definition shaped_resource (v : value) : bool :=
  match v with
  | VDict [(k1, _); (k2, VList (m :: ms))] =>
      String.eqb k1 "path" && String.eqb k2 "methods"
      && forallb shaped_method (m :: ms)
  | _ => false
  end.

Definition shaped_audit (v : value) : bool :=
  match v with
  | VDict [(k1, _); (k2, _); (k3, _)] =>
      String.eqb k1 "api_id" && String.eqb k2 "name"
      && String.eqb k3 "endpoint_type"
  | VDict [(k1, _); (k2, _); (k3, _); (k4, VList (r :: rs))] =>
      String.eqb k1 "api_id" && String.eqb k2 "name"
      && String.eqb k3 "endpoint_type" && String.eqb k4 "resources"
      && forallb shaped_resource (r :: rs)
  | _ => false
  end.

Definition shaped_report (v : value) : bool :=
  match v with
  | VList l => forallb shaped_audit l
  | _ => false
  end.

(** Whether an ApiAudit dict carries the key 'resources'. *)
Definition has_resources (v : value) : bool :=
  match v with
  | VDict d => match lookup "resources" d with Some _ => true | None => false end
  | _ => false
  end.

(** A client whose second API cannot be listed: the call for its resources
    is throttled. *)
Definition throttled_client : client :=
  {| get_rest_apis :=
       Ok (VDict [("items",
                   VList [raw_of_api shop;
                          raw_of_api {| id := "b2"; name := "Billing";
                                        endpointTypes := ["EDGE"] |}])]);
     get_resources := fun api_id =>
       if is_str "a1" api_id
       then Ok (VDict [("items", VList [raw_of_resource items_resource])])
       else Raise (ClientError "TooManyRequestsException") |}.

(** ** Filtering a report after the fact

    What a method filter leaves of a report made without one: the selected
    methods, the resources that keep a method, and the resources field only
    when a resource is left. *)

Definition restrict_resource (methods : option (list string)) (r : Resource)
  : option Resource :=
  match filter (fun m => member methods (ms_httpMethod m)) (r_methods r) with
  | [] => None
  | ms => Some {| r_path := r_path r; r_methods := ms |}
  end.

Definition restrict_audit (methods : option (list string)) (a : ApiAudit)
  : ApiAudit :=
  {| apiId := apiId a;
     a_name := a_name a;
     a_endpointTypes := a_endpointTypes a;
     resources :=
       match resources a with
       | None => None
       | Some rs =>
           match keep_some (restrict_resource methods) rs with
           | [] => None
           | rs' => Some rs'
           end
       end |}.

(** ** What main prints before the report *)






(** ** Clients that answer with Python dicts *)

(** Every response of the client is a value whose dicts have distinct
    keys, as every value built by a Python program is. *)
Definition proper_client (apigw : client) : Prop :=
  (forall response, get_rest_apis apigw = Ok response ->
                    proper response = true) /\
  (forall api_id response, get_resources apigw api_id = Ok response ->
                           proper response = true).

(** Text made of the characters from the space to the tilde. *)
Definition printable_ascii (s : string) : bool :=
  forallb (fun c => let n := nat_of_ascii c in
                    ((32 <=? n) && (n <=? 126))%nat)
          (list_ascii_of_string s).

(** A client that answers with values of other types than API Gateway
    documents: an integer id, no name, a string for the endpoint types, a
    list for the path. *)
Definition loose_client : client :=
  {| get_rest_apis :=
       Ok (VDict [("items",
                   VList [VDict [("id", VInt 7); ("name", VNone);
                                 ("endpointConfiguration",
                                  VDict [("types", VStr "REGIONAL")])]])]);
     get_resources := fun _ =>
       Ok (VDict [("items",
                   VList [VDict [("path", VList [VStr "x"; VInt (-1)]);
                                 ("resourceMethods",
                                  VDict [("GET",
                                          VDict [("httpMethod", VStr "GET");
                                                 ("authorizationType", VInt 0);
                                                 ("apiKeyRequired", VStr "no")])])]])]) |}.

(** ** json-pretty: the value with its keys sorted *)

(** The value whose dicts hold the same items in the order of
    [sort_keys=True], at every depth. *)
Fixpoint sort_keys (v : value) : value :=
  match v with
  | VList l => VList (map sort_keys l)
  | VDict d =>
      VDict (sort_items (map (fun kv => match kv with
                                        | (k, x) => (k, sort_keys x)
                                        end) d))
  | _ => v
  end.

(** What may follow a value inside an indented JSON text: white space, a
    comma, a closing bracket, or the end of the text. *)
Definition terminated (rest : string) : bool :=
  match rest with
  | EmptyString => true
  | String c _ =>
      is_ws c || Ascii.eqb c "," || Ascii.eqb c "]" || Ascii.eqb c "}"
  end.

(** ** The methods of a report *)

Definition resources_of (api : value) : list value :=
  match api with
  | VDict d =>
      match lookup "resources" d with
      | Some (VList l) => l
      | _ => []
      end
  | _ => []
  end.

(** Every method dict of a report, in report order. *)
Definition report_methods (report : value) : list value :=
  match report with
  | VList ds => flat_map (fun api => flat_map methods_of (resources_of api)) ds
  | _ => []
  end.

(** A method dict whose 'method' is a str of the filter. *)
Definition verb_in (ms : list string) (m : value) : bool :=
  match m with
  | VDict d =>
      match lookup "method" d with
      | Some (VStr verb) => existsb (String.eqb verb) ms
      | _ => false
      end
  | _ => false
  end.

(** A character that repr() copies as it is between single quotes. *)
Definition plain (c : ascii) : bool :=
  printable c && negb (Ascii.eqb c squote) && negb (Ascii.eqb c backslash).

Definition plain_string (s : string) : bool :=
  forallb plain (list_ascii_of_string s).

(** * Properties *)

(** ** The error monad and the loops *)

Lemma bind_ok {A B} (r : result A) (k : A -> result B) (b : B) :
  bind r k = Ok b -> exists a, r = Ok a /\ k a = Ok b.
Proof.
  destruct r as [a|e]; simpl; intros H; [eauto | discriminate].
Qed.

Lemma for_each_app {A B} (body : B -> A -> result B) (xs ys : list A) (acc : B) :
  for_each body (xs ++ ys) acc =
  bind (for_each body xs acc) (for_each body ys).
Proof.
  revert acc; induction xs as [|x xs IH]; intros acc; simpl; [reflexivity|].
  destruct (body acc x) as [acc'|e]; simpl; [apply IH | reflexivity].
Qed.

(** Once an iteration raises, the loop raises, whatever came before it
    (an earlier iteration may have raised first). *)
Lemma for_each_raises {A B} (body : B -> A -> result B) (xs : list A) (x : A) :
  In x xs ->
  (forall acc, exists e, body acc x = Raise e) ->
  forall acc, exists e, for_each body xs acc = Raise e.
Proof.
  intros Hin Hx. induction xs as [|y ys IH]; [contradiction|].
  intros acc. simpl.
  destruct Hin as [->|Hin].
  - destruct (Hx acc) as [e ->]. simpl. eauto.
  - destruct (body acc y) as [acc'|e]; simpl; [apply IH; assumption | eauto].
Qed.

(** ** The filter test *)

Lemma selected_str (methods : option (list string)) (verb : string) :
  selected methods (VStr verb) = member methods verb.
Proof. reflexivity. Qed.

Lemma member_iff (methods : option (list string)) (verb : string) :
  member methods verb = true <->
  methods = None \/ exists ms, methods = Some ms /\ In verb ms.
Proof.
  destruct methods as [ms|]; simpl.
  - rewrite existsb_exists. split.
    + intros [m [Hin Heq]]. apply String.eqb_eq in Heq. subst m.
      right. eauto.
    + intros [H|[ms' [H Hin]]]; [discriminate|]. injection H as <-.
      exists verb. split; [assumption | apply String.eqb_refl].
  - split; [auto | reflexivity].
Qed.

Lemma selected_only_str (ms : list string) (v : value) :
  selected (Some ms) v = true -> exists verb, v = VStr verb /\ In verb ms.
Proof.
  simpl. rewrite existsb_exists. intros [m [Hin H]].
  destruct v; simpl in H; try discriminate.
  apply String.eqb_eq in H. subst. eauto.
Qed.

(** ** parse_resource on well-formed resources *)

Lemma parse_methods_typed (methods : option (list string))
    (ms : list (string * MethodRaw)) (acc : list value) :
  for_each (parse_method methods)
    (map (fun kv => (fst kv, raw_of_method (snd kv))) ms) acc =
  Ok (acc ++ map value_of_method
        (map secure (filter (fun m => member methods (httpMethod m))
                       (map snd ms))))%list.
Proof.
  revert acc. induction ms as [|[k m] ms IH]; intros acc; simpl.
  - rewrite app_nil_r. reflexivity.
  - unfold parse_method at 1. simpl. rewrite selected_str.
    destruct (member methods (httpMethod m)); simpl.
    + rewrite IH. rewrite <- app_assoc. reflexivity.
    + apply IH.
Qed.

Lemma parse_resource_typed (methods : option (list string)) (r : ResourceRaw) :
  parse_resource methods (raw_of_resource r) =
  Ok (value_of_parse (parse methods r)).
Proof.
  unfold parse_resource, raw_of_resource, parse, parse_with, kept, entries.
  destruct (resourceMethods r) as [ms|]; simpl; [|reflexivity].
  rewrite parse_methods_typed. simpl.
  destruct (map secure _); reflexivity.
Qed.

(** ** audit on a snapshot *)

Lemma collect_typed (methods : option (list string)) (rs : list ResourceRaw)
    (acc : list value) :
  for_each (collect_resource methods) (map raw_of_resource rs) acc =
  Ok (acc ++ map value_of_resource (keep_some (parse methods) rs))%list.
Proof.
  revert acc. induction rs as [|r rs IH]; intros acc; simpl.
  - rewrite app_nil_r. reflexivity.
  - unfold collect_resource at 1. rewrite parse_resource_typed. simpl.
    destruct (parse methods r) as [x|]; simpl.
    + rewrite IH, <- app_assoc. reflexivity.
    + apply IH.
Qed.

Lemma audit_item_typed (methods : option (list string)) (s : Snapshot)
    (a : ApiSummary) (acc : list value) :
  audit_item (client_of s) methods acc (raw_of_api a) =
  Ok (acc ++ [value_of_audit (audit_of methods s a)])%list.
Proof.
  unfold audit_item, value_of_audit, audit_of, surviving. simpl.
  pose proof (collect_typed methods (listResources s (id a)) []) as H.
  destruct (listResources s (id a)) as [|r rs]; simpl in *; [reflexivity|].
  rewrite H. simpl.
  destruct (parse methods r); [reflexivity|].
  destruct (keep_some (parse methods) rs); reflexivity.
Qed.

Lemma audit_items_typed (methods : option (list string)) (s : Snapshot)
    (apis : list ApiSummary) (acc : list value) :
  for_each (audit_item (client_of s) methods) (map raw_of_api apis) acc =
  Ok (acc ++ map value_of_audit (map (audit_of methods s) apis))%list.
Proof.
  revert acc. induction apis as [|a apis IH]; intros acc; simpl.
  - rewrite app_nil_r. reflexivity.
  - rewrite audit_item_typed. simpl. rewrite IH, <- app_assoc. reflexivity.
Qed.

Lemma audit_typed (methods : option (list string)) (s : Snapshot) :
  audit (client_of s) methods = Ok (value_of_report (report_of methods s)).
Proof.
  unfold audit. simpl. rewrite audit_items_typed. reflexivity.
Qed.

Lemma parse_none_iff (methods : option (list string)) (r : ResourceRaw) :
  parse_resource methods (raw_of_resource r) = Ok VNone <->
  parse methods r = None.
Proof.
  rewrite parse_resource_typed.
  destruct (parse methods r); simpl; split; intros H;
    try reflexivity; discriminate.
Qed.

Lemma keep_some_nil_iff {A B} (f : A -> option B) (l : list A) :
  keep_some f l = [] <-> Forall (fun x => f x = None) l.
Proof.
  induction l as [|x l IH]; simpl.
  - split; auto.
  - destruct (f x) eqn:E; split; intros H.
    + discriminate.
    + inversion H; subst. congruence.
    + constructor; [assumption | apply IH; assumption].
    + inversion H; subst. apply IH. assumption.
Qed.

(** C1.  For every API the collaborator returns, audit emits exactly one
    record, in the same position; the record carries the key 'resources'
    exactly when at least one resource of that API did not parse to None,
    and the key is never bound to an empty list. *)
Theorem audit_resources_field (methods : option (list string)) (s : Snapshot) :
  exists ds,
    audit (client_of s) methods = Ok (VList ds) /\
    Forall2
      (fun a d =>
         exists e,
           d = VDict e /\
           lookup "api_id" e = Some (VStr (id a)) /\
           (lookup "resources" e = None <->
            Forall (fun r => parse_resource methods (raw_of_resource r)
                             = Ok VNone)
                   (listResources s (id a))) /\
           lookup "resources" e <> Some (VList []))
      (listApis s) ds.
Proof.
  exists (map value_of_audit (report_of methods s)).
  split; [apply audit_typed|].
  unfold report_of. induction (listApis s) as [|a apis IH]; simpl;
    constructor; [|exact IH].
  eexists. split; [reflexivity|]. split; [reflexivity|].
  assert (Hnil : surviving methods s a = [] <->
                 Forall (fun r => parse_resource methods (raw_of_resource r)
                                  = Ok VNone) (listResources s (id a))).
  { unfold surviving. rewrite keep_some_nil_iff.
    split; apply Forall_impl; intros r; apply parse_none_iff. }
  simpl. destruct (surviving methods s a) as [|x xs]; simpl.
  - split; [|discriminate]. split; intros _; [apply Hnil|]; reflexivity.
  - split; [|discriminate]. split; intros H; [discriminate|].
    apply Hnil in H. discriminate.
Qed.

(** A list obtained from another by dropping elements, order kept. *)
Inductive subseq {A} : list A -> list A -> Prop :=
| subseq_nil : subseq [] []
| subseq_keep x l l' : subseq l l' -> subseq (x :: l) (x :: l')
| subseq_drop x l l' : subseq l l' -> subseq l (x :: l').

Lemma parse_path (methods : option (list string)) (r : ResourceRaw) (x : Resource) :
  parse methods r = Some x -> r_path x = path r.
Proof.
  unfold parse, parse_with. destruct (kept _ r); intros H;
    [discriminate | injection H as <-; reflexivity].
Qed.

Lemma surviving_paths (methods : option (list string)) (rs : list ResourceRaw) :
  subseq (map r_path (keep_some (parse methods) rs)) (map path rs).
Proof.
  induction rs as [|r rs IH]; simpl; [constructor|].
  destruct (parse methods r) as [x|] eqn:E; simpl.
  - rewrite (parse_path _ _ _ E). constructor. exact IH.
  - constructor. exact IH.
Qed.

Lemma kept_verbs (sel : string -> bool) (ms : list MethodRaw) :
  subseq (map ms_httpMethod (map secure (filter (fun m => sel (httpMethod m)) ms)))
         (map httpMethod ms).
Proof.
  induction ms as [|m ms IH]; simpl; [constructor|].
  destruct (sel (httpMethod m)); simpl; constructor; exact IH.
Qed.

(** C8.  The report of audit is the collaborator's data mapped in place:
    one ApiAudit per API in the API order, carrying the resources that
    parse to a Resource in the collaborator's resource order, each with the
    selected methods in the order of the method mapping.  Nothing is
    sorted, merged or dropped as a duplicate. *)
Theorem audit_preserves_order (methods : option (list string)) (s : Snapshot) :
  audit (client_of s) methods
    = Ok (value_of_report (map (audit_of methods s) (listApis s))) /\
  map apiId (map (audit_of methods s) (listApis s)) = map id (listApis s) /\
  (forall a,
      resources (audit_of methods s a) <> None ->
      resources (audit_of methods s a)
        = Some (keep_some (parse methods) (listResources s (id a)))) /\
  (forall a,
      subseq (map r_path (surviving methods s a))
             (map path (listResources s (id a)))) /\
  (forall r x,
      parse methods r = Some x ->
      r_methods x = map secure (filter (fun m => member methods (httpMethod m))
                                       (map snd (entries r))) /\
      subseq (map ms_httpMethod (r_methods x))
             (map httpMethod (map snd (entries r)))).
Proof.
  split; [apply audit_typed|]. split; [|split; [|split]].
  - rewrite map_map. reflexivity.
  - intros a. unfold audit_of, surviving. simpl.
    destruct (keep_some _ _); [congruence | reflexivity].
  - intros a. apply surviving_paths.
  - intros r x. unfold parse, parse_with, kept.
    destruct (map secure _) as [|m ms] eqn:E; intros H; [discriminate|].
    injection H as <-. cbn [r_methods]. rewrite <- E.
    split; [reflexivity | apply kept_verbs].
Qed.

Lemma audit_preserves_order_witness :
  audit (client_of scenario_a) (Some ["POST"; "GET"])
  = Ok (value_of_report
          [{| apiId := "a1"; a_name := "Shop"; a_endpointTypes := ["REGIONAL"];
              resources :=
                Some [{| r_path := "/items";
                         r_methods :=
                           [{| ms_httpMethod := "GET";
                               ms_authorizationType := "NONE";
                               ms_apiKeyRequired := false |};
                            {| ms_httpMethod := "POST";
                               ms_authorizationType := "AWS_IAM";
                               ms_apiKeyRequired := true |}] |}] |}]).
Proof.
  exact (proj1 (audit_preserves_order (Some ["POST"; "GET"]) scenario_a)).
Defined.

(** C2.  A resource without a method mapping, and a resource none of whose
    verbs is in a non-empty filter, parse to None; and whatever the input,
    a parse result is None or a Resource with at least one method. *)
Theorem parse_resource_absent :
  (forall (methods : option (list string)) (r : ResourceRaw),
      (resourceMethods r = None \/
       exists ms, methods = Some ms /\ ms <> [] /\
                  forall k m, In (k, m) (entries r) -> ~ In (httpMethod m) ms) ->
      parse_resource methods (raw_of_resource r) = Ok VNone) /\
  (forall (methods : option (list string)) (resource out : value),
      parse_resource methods resource = Ok out ->
      out = VNone \/
      exists p m ms, out = VDict [("path", p); ("methods", VList (m :: ms))]).
Proof.
  split.
  - intros methods r H. apply parse_none_iff.
    unfold parse, parse_with, kept, entries in *.
    destruct H as [-> | [ms [-> [_ H]]]]; [reflexivity|].
    destruct (resourceMethods r) as [es|]; [|reflexivity].
    replace (filter _ (map snd es)) with (@nil MethodRaw); [reflexivity|].
    symmetry. induction es as [|[k m] es IH]; [reflexivity|]. simpl.
    destruct (existsb _ ms) eqn:E.
    + exfalso. apply existsb_exists in E. destruct E as [v [Hin Heq]].
      apply String.eqb_eq in Heq. subst v.
      apply (H k m); [left; reflexivity | assumption].
    + apply IH. intros k' m' Hin. apply (H k'). right. exact Hin.
  - intros methods resource out H. unfold parse_resource in H.
    apply bind_ok in H. destruct H as [p [_ H]].
    apply bind_ok in H. destruct H as [has [_ H]].
    apply bind_ok in H. destruct H as [parsed [_ H]].
    destruct parsed as [|m ms]; simpl in H; injection H as <-.
    + left. reflexivity.
    + right. eauto.
Qed.

Lemma parse_resource_absent_witness :
  parse_resource (Some ["POST"]) (raw_of_resource get_only) = Ok VNone.
Proof.
  apply (proj1 parse_resource_absent). right. exists ["POST"].
  split; [reflexivity|]. split; [discriminate|].
  intros k m [H|[]]. injection H as _ <-. simpl.
  intros [H|[]]. discriminate.
Defined.

(** ** The method filter *)

(** Scenario A under a filter that is set but empty: no method is selected
    and the resource parses to None, whereas the test as the specification
    words it selects both methods. *)
Lemma empty_filter_selects_nothing :
  parse_resource (Some []) (raw_of_resource items_resource) = Ok VNone /\
  value_of_parse (parse_with (spec_member (Some [])) items_resource)
    = VDict [("path", VStr "/items");
             ("methods",
              VList [VDict [("method", VStr "GET");
                            ("authorization_type", VStr "NONE");
                            ("api_key_required", VBool false)];
                     VDict [("method", VStr "POST");
                            ("authorization_type", VStr "AWS_IAM");
                            ("api_key_required", VBool true)]])] /\
  parse_resource (Some []) (raw_of_resource items_resource)
    <> Ok (value_of_parse (parse_with (spec_member (Some [])) items_resource)).
Proof.
  split; [reflexivity|]. split; [reflexivity|]. discriminate.
Qed.

(** C3, amended.  The methods of the parsed resource are the entries of the
    mapping, in order, whose verb passes the test "the filter is unset
    (None), or the verb is an element of the filter"; membership is equality
    of strings, so it is sensitive to case; a filter that is set but empty
    selects nothing. *)
Theorem parse_resource_filter (methods : option (list string)) (r : ResourceRaw) :
  exists out,
    parse_resource methods (raw_of_resource r) = Ok out /\
    methods_of out
      = map value_of_method
          (map secure (filter (fun m => member methods (httpMethod m))
                              (map snd (entries r)))) /\
    (forall verb,
        member methods verb = true <->
        methods = None \/ exists ms, methods = Some ms /\ In verb ms) /\
    match methods with
    | Some [] => out = VNone
    | _ => True
    end /\
    member (Some ["get"]) "GET" = false.
Proof.
  exists (value_of_parse (parse methods r)).
  split; [apply parse_resource_typed|].
  split; [|split; [intros verb; apply member_iff | split; [|reflexivity]]].
  - unfold parse, parse_with, kept.
    destruct (map secure _); reflexivity.
  - destruct methods as [[|m ms]|]; try exact I.
    unfold parse, parse_with, kept. simpl.
    induction (map snd (entries r)); simpl; [reflexivity | assumption].
Qed.

(** ** Malformed method entries *)

Lemma parse_resource_dict (methods : option (list string))
    (d es : list (string * value)) (p : value) :
  lookup "path" d = Some p ->
  lookup "resourceMethods" d = Some (VDict es) ->
  parse_resource methods (VDict d) =
  bind (for_each (parse_method methods) es [])
       (fun parsed => if nonempty parsed
                      then Ok (VDict [("path", p); ("methods", VList parsed)])
                      else Ok VNone).
Proof.
  intros Hp Hm. unfold parse_resource. simpl. rewrite Hp. simpl.
  rewrite Hm. reflexivity.
Qed.

(** Entries that carry httpMethod and, when selected, both security
    attributes, are parsed without an exception. *)
Lemma parse_methods_ok (methods : option (list string)) (es : list (string * value)) :
  Forall (fun kv =>
            exists e verb,
              snd kv = VDict e /\ lookup "httpMethod" e = Some verb /\
              (selected methods verb = true ->
               exists a k, lookup "authorizationType" e = Some a /\
                           lookup "apiKeyRequired" e = Some k)) es ->
  forall acc, exists out, for_each (parse_method methods) es acc = Ok out.
Proof.
  induction 1 as [|[key v] es [e [verb [Hv [Hverb Hsel]]]] _ IH]; intros acc;
    simpl in *; [eauto|].
  subst v. unfold parse_method at 1. simpl. rewrite Hverb. simpl.
  destruct (selected methods verb).
  - destruct (Hsel eq_refl) as [a [k [Ha Hk]]]. rewrite Ha, Hk. simpl. apply IH.
  - apply IH.
Qed.

(** Two mappings that agree on httpMethod everywhere and on the security
    attributes of the selected entries are parsed alike. *)
Lemma parse_methods_agree (methods : option (list string))
    (es es' : list (string * value)) :
  Forall2 (fun kv kv' =>
             exists e e' verb,
               snd kv = VDict e /\ snd kv' = VDict e' /\
               lookup "httpMethod" e = Some verb /\
               lookup "httpMethod" e' = Some verb /\
               (selected methods verb = true ->
                lookup "authorizationType" e' = lookup "authorizationType" e /\
                lookup "apiKeyRequired" e' = lookup "apiKeyRequired" e)) es es' ->
  forall acc, for_each (parse_method methods) es' acc
              = for_each (parse_method methods) es acc.
Proof.
  induction 1 as [|[key v] [key' v'] es es'
                    [e [e' [verb [Hv [Hv' [Hverb [Hverb' Hsel]]]]]]] _ IH];
    intros acc; simpl in *; [reflexivity|].
  subst v v'. unfold parse_method at 1 3. simpl. rewrite Hverb, Hverb'. simpl.
  destruct (selected methods verb).
  - destruct (Hsel eq_refl) as [-> ->].
    destruct (lookup "authorizationType" e); simpl; [|reflexivity].
    destruct (lookup "apiKeyRequired" e); simpl; [apply IH | reflexivity].
  - apply IH.
Qed.

(** C10.  Under a filter, whatever its elements, the security attributes
    of the entries whose verb is not in the filter are not read: when every
    entry carries httpMethod and every selected entry carries both
    attributes, the resource parses without an exception, and the result is
    the same for any other mapping that differs only in what the excluded
    entries hold besides httpMethod. *)
Theorem excluded_entries_not_read (ms : list string)
    (d es : list (string * value)) (p : value) :
  lookup "path" d = Some p ->
  lookup "resourceMethods" d = Some (VDict es) ->
  Forall (fun kv =>
            exists e verb,
              snd kv = VDict e /\ lookup "httpMethod" e = Some verb /\
              (selected (Some ms) verb = true ->
               exists a k, lookup "authorizationType" e = Some a /\
                           lookup "apiKeyRequired" e = Some k)) es ->
  (exists out, parse_resource (Some ms) (VDict d) = Ok out) /\
  (forall d' es',
      lookup "path" d' = Some p ->
      lookup "resourceMethods" d' = Some (VDict es') ->
      Forall2 (fun kv kv' =>
                 exists e e' verb,
                   snd kv = VDict e /\ snd kv' = VDict e' /\
                   lookup "httpMethod" e = Some verb /\
                   lookup "httpMethod" e' = Some verb /\
                   (selected (Some ms) verb = true ->
                    lookup "authorizationType" e' = lookup "authorizationType" e /\
                    lookup "apiKeyRequired" e' = lookup "apiKeyRequired" e))
              es es' ->
      parse_resource (Some ms) (VDict d') = parse_resource (Some ms) (VDict d)).
Proof.
  intros Hp Hm Hwf. split.
  - rewrite (parse_resource_dict _ _ _ _ Hp Hm).
    destruct (parse_methods_ok _ _ Hwf []) as [parsed ->]. simpl.
    destruct (nonempty parsed); eauto.
  - intros d' es' Hp' Hm' Hagree.
    rewrite (parse_resource_dict _ _ _ _ Hp Hm).
    rewrite (parse_resource_dict _ _ _ _ Hp' Hm').
    rewrite (parse_methods_agree _ _ _ Hagree). reflexivity.
Qed.

Lemma excluded_entries_not_read_witness :
  exists out, parse_resource (Some ["POST"]) broken_get = Ok out.
Proof.
  refine (proj1 (excluded_entries_not_read ["POST"] broken_fields
                   broken_methods (VStr "/items") eq_refl eq_refl _)).
  repeat constructor.
  - exists [("httpMethod", VStr "GET")], (VStr "GET").
    repeat split. discriminate.
  - exists [("httpMethod", VStr "POST"); ("authorizationType", VStr "AWS_IAM");
            ("apiKeyRequired", VBool true)], (VStr "POST").
    repeat split. intros _. exists (VStr "AWS_IAM"), (VBool true).
    split; reflexivity.
Defined.

(** With the filter POST, the resource whose GET entry lacks both security
    attributes parses to its POST method, and the audit run that meets it
    returns its report. *)
Lemma excluded_malformed_entry_is_skipped :
  parse_resource (Some ["POST"]) broken_get
    = Ok (VDict [("path", VStr "/items");
                 ("methods",
                  VList [VDict [("method", VStr "POST");
                                ("authorization_type", VStr "AWS_IAM");
                                ("api_key_required", VBool true)]])]) /\
  audit broken_client (Some ["POST"])
    = Ok (VList
            [VDict [("api_id", VStr "a1"); ("name", VStr "Shop");
                    ("endpoint_type", VList [VStr "REGIONAL"]);
                    ("resources",
                     VList [VDict [("path", VStr "/items");
                                   ("methods",
                                    VList [VDict [("method", VStr "POST");
                                                  ("authorization_type", VStr "AWS_IAM");
                                                  ("api_key_required", VBool true)]])]])]]).
Proof. split; reflexivity. Qed.

(** A selected entry without one of the security attributes makes its
    iteration raise KeyError. *)
Lemma parse_method_malformed (methods : option (list string))
    (key : string) (e : list (string * value)) (verb : value) :
  lookup "httpMethod" e = Some verb ->
  selected methods verb = true ->
  lookup "authorizationType" e = None \/ lookup "apiKeyRequired" e = None ->
  forall acc, exists k, parse_method methods acc (key, VDict e) = Raise (KeyError k).
Proof.
  intros Hverb Hsel Hmiss acc. unfold parse_method. simpl.
  rewrite Hverb. simpl. rewrite Hsel.
  destruct (lookup "authorizationType" e) as [a|]; simpl; [|eauto].
  destruct Hmiss as [H|H]; [discriminate|]. rewrite H. simpl. eauto.
Qed.

(** Over a mapping whose values are all dicts, the only exception of the
    loop is KeyError. *)
Lemma parse_methods_key_error (methods : option (list string))
    (es : list (string * value)) :
  Forall (fun kv => exists e, snd kv = VDict e) es ->
  forall acc x, for_each (parse_method methods) es acc = Raise x ->
                exists k, x = KeyError k.
Proof.
  induction 1 as [|[key v] es [e Hv] _ IH]; intros acc x; simpl in *;
    [discriminate|].
  subst v. unfold parse_method at 1. simpl.
  destruct (lookup "httpMethod" e) as [verb|]; simpl;
    [|intros H; injection H as <-; eauto].
  destruct (selected methods verb); [|apply IH].
  destruct (lookup "authorizationType" e); simpl;
    [|intros H; injection H as <-; eauto].
  destruct (lookup "apiKeyRequired" e); simpl;
    [apply IH | intros H; injection H as <-; eauto].
Qed.

Lemma parse_resource_malformed (methods : option (list string))
    (resource : value) (es : list (string * value))
    (key : string) (e : list (string * value)) (verb : value) :
  subscript resource "resourceMethods" = Ok (VDict es) ->
  In (key, VDict e) es ->
  lookup "httpMethod" e = Some verb ->
  selected methods verb = true ->
  lookup "authorizationType" e = None \/ lookup "apiKeyRequired" e = None ->
  exists x,
    parse_resource methods resource = Raise x /\
    (Forall (fun kv => exists e', snd kv = VDict e') es ->
     exists k, x = KeyError k).
Proof.
  intros Hm Hin Hverb Hsel Hmiss.
  destruct resource as [| | | | |d]; try discriminate.
  simpl in Hm. destruct (lookup "resourceMethods" d) as [m|] eqn:Hd;
    [injection Hm as ->|discriminate].
  unfold parse_resource. simpl.
  destruct (lookup "path" d) as [p|]; simpl; [|eauto].
  rewrite Hd. simpl.
  destruct (for_each_raises (parse_method methods) es (key, VDict e) Hin
              (fun acc =>
                 match parse_method_malformed methods key e verb
                         Hverb Hsel Hmiss acc with
                 | ex_intro _ k H => ex_intro _ (KeyError k) H
                 end) []) as [x Hx].
  rewrite Hx. simpl. exists x. split; [reflexivity|].
  intros Hall. exact (parse_methods_key_error _ _ Hall _ _ Hx).
Qed.

(** C7, amended.  A method entry that the filter selects and that lacks
    authorizationType or apiKeyRequired makes parse_resource raise (a
    KeyError when the values of the mapping are dicts), and an audit run
    whose collaborator returns that resource raises instead of returning a
    report: the entry is neither skipped nor completed with a default. *)
Theorem selected_malformed_entry_aborts
    (apigw : client) (methods : option (list string))
    (response api api_id rescResp resource verb : value)
    (apis rs : list value) (es e : list (string * value)) (key : string) :
  get_rest_apis apigw = Ok response ->
  subscript response "items" = Ok (VList apis) ->
  In api apis ->
  subscript api "id" = Ok api_id ->
  get_resources apigw api_id = Ok rescResp ->
  subscript rescResp "items" = Ok (VList rs) ->
  In resource rs ->
  subscript resource "resourceMethods" = Ok (VDict es) ->
  In (key, VDict e) es ->
  lookup "httpMethod" e = Some verb ->
  selected methods verb = true ->
  lookup "authorizationType" e = None \/ lookup "apiKeyRequired" e = None ->
  (exists x,
      parse_resource methods resource = Raise x /\
      (Forall (fun kv => exists e', snd kv = VDict e') es ->
       exists k, x = KeyError k)) /\
  (exists x, audit apigw methods = Raise x).
Proof.
  intros Hresp Hitems Hapi Hid Hres Hritems Hin Hm Hentry Hverb Hsel Hmiss.
  destruct (parse_resource_malformed methods resource es key e verb
              Hm Hentry Hverb Hsel Hmiss) as [x [Hx Hkey]].
  split; [eauto|].
  assert (Hcollect : forall acc, exists y,
             for_each (collect_resource methods) rs acc = Raise y).
  { apply (for_each_raises _ rs resource Hin). intros acc.
    unfold collect_resource. rewrite Hx. simpl. eauto. }
  assert (Hitem : forall acc, exists y,
             audit_item apigw methods acc api = Raise y).
  { intros acc. unfold audit_item. rewrite Hid. simpl.
    destruct (subscript api "name"); simpl; [|eauto].
    destruct (subscript api "endpointConfiguration") as [c|]; simpl; [|eauto].
    destruct (subscript c "types"); simpl; [|eauto].
    rewrite Hres. simpl. rewrite Hritems. simpl.
    destruct (Hcollect []) as [y Hy].
    destruct rs as [|r rs']; [contradiction|].
    cbn [truthy iterate bind]. rewrite Hy. simpl. eauto. }
  unfold audit. rewrite Hresp. simpl. rewrite Hitems. simpl.
  destruct (for_each_raises _ apis api Hapi Hitem []) as [y Hy].
  rewrite Hy. simpl. eauto.
Qed.

Lemma selected_malformed_entry_aborts_witness :
  exists x, audit broken_client None = Raise x.
Proof.
  refine (proj2 (selected_malformed_entry_aborts
                   broken_client None
                   (VDict [("items", VList [raw_of_api shop])])
                   (raw_of_api shop) (VStr "a1")
                   (VDict [("items", VList [broken_get])])
                   broken_get (VStr "GET")
                   [raw_of_api shop] [broken_get]
                   broken_methods [("httpMethod", VStr "GET")] "GET"
                   eq_refl eq_refl _ eq_refl eq_refl eq_refl _ eq_refl _
                   eq_refl eq_refl _)).
  - left. reflexivity.
  - left. reflexivity.
  - left. reflexivity.
  - left. reflexivity.
Defined.

(** ** The tabular rendering *)

Lemma csv_line_typed (a : ApiAudit) (r : Resource) (m : MethodSecurity) :
  csv_line (value_of_audit a) (value_of_resource r) (value_of_method m)
  = Ok (csv_row a r m).
Proof.
  unfold csv_line, csv_row. simpl.
  destruct (ms_apiKeyRequired m); reflexivity.
Qed.

Lemma print_methods_typed (a : ApiAudit) (r : Resource)
    (ms : list MethodSecurity) (out : list string) :
  io_for (fun method =>
            line <~ lift (csv_line (value_of_audit a) (value_of_resource r)
                            method) ;;
            print line)
         (map value_of_method ms) out
  = ((out ++ map (csv_row a r) ms)%list, Ok tt).
Proof.
  revert out. induction ms as [|m ms IH]; intros out; simpl.
  - rewrite app_nil_r. reflexivity.
  - unfold io_bind at 1. unfold io_bind at 1. unfold lift at 1.
    rewrite csv_line_typed. unfold print at 1.
    rewrite IH, <- app_assoc. reflexivity.
Qed.

Lemma print_resource_typed (a : ApiAudit) (r : Resource) (out : list string) :
  print_resource (value_of_audit a) (value_of_resource r) out
  = ((out ++ csv_rows_of_resource a r)%list, Ok tt).
Proof.
  unfold print_resource, csv_rows_of_resource.
  pose proof (print_methods_typed a r (r_methods r) out) as H.
  unfold io_bind, lift. simpl.
  destruct (r_methods r) as [|m ms]; simpl in *.
  - rewrite app_nil_r. reflexivity.
  - exact H.
Qed.

Lemma print_resources_typed (a : ApiAudit) (rs : list Resource)
    (out : list string) :
  io_for (print_resource (value_of_audit a)) (map value_of_resource rs) out
  = ((out ++ flat_map (csv_rows_of_resource a) rs)%list, Ok tt).
Proof.
  revert out. induction rs as [|r rs IH]; intros out; simpl.
  - rewrite app_nil_r. reflexivity.
  - unfold io_bind at 1. rewrite print_resource_typed, IH, <- app_assoc.
    reflexivity.
Qed.

Lemma print_api_present (a : ApiAudit) (out : list string) :
  resources a <> None ->
  print_api (value_of_audit a) out
  = ((out ++ csv_rows_of_audit a)%list, Ok tt).
Proof.
  intros H. unfold print_api, csv_rows_of_audit.
  pose proof (print_resources_typed a) as Hrs.
  unfold io_bind, lift. unfold value_of_audit at 1.
  destruct (resources a) as [rs|]; [|congruence]. simpl.
  apply Hrs.
Qed.

Lemma print_api_absent (a : ApiAudit) (out : list string) :
  resources a = None ->
  print_api (value_of_audit a) out = (out, Raise (KeyError "resources")).
Proof.
  intros H. unfold print_api, io_bind, lift, value_of_audit.
  rewrite H. reflexivity.
Qed.

Lemma print_apis_present (r : AuditReport) (out : list string) :
  Forall (fun a => resources a <> None) r ->
  io_for print_api (map value_of_audit r) out
  = ((out ++ csv_rows r)%list, Ok tt).
Proof.
  intros H. revert out. induction H as [|a r Ha _ IH]; intros out; simpl.
  - rewrite app_nil_r. reflexivity.
  - unfold io_bind at 1. rewrite (print_api_present a out Ha), IH, <- app_assoc.
    reflexivity.
Qed.

Lemma io_for_app {A} (body : A -> io unit) (xs ys : list A) (out : list string) :
  io_for body (xs ++ ys) out =
  match io_for body xs out with
  | (out', Ok _) => io_for body ys out'
  | (out', Raise e) => (out', Raise e)
  end.
Proof.
  revert out. induction xs as [|x xs IH]; intros out; simpl; [reflexivity|].
  unfold io_bind. destruct (body x out) as [out' [[]|e]]; [apply IH | reflexivity].
Qed.

Lemma print_audits_csv (format : string) (v : value) :
  format <> "json-pretty" -> format <> "json" ->
  print_audits format v = (seq <~ lift (iterate v) ;; io_for print_api seq).
Proof.
  intros H1 H2. unfold print_audits.
  destruct (String.eqb_spec format "json-pretty"); [contradiction|].
  destruct (String.eqb_spec format "json"); [contradiction|]. reflexivity.
Qed.

Lemma csv_rows_count (r : AuditReport) :
  length (csv_rows r) = list_sum (map methods_in_audit r).
Proof.
  unfold csv_rows. induction r as [|a r IH]; simpl; [reflexivity|].
  rewrite length_app, IH. f_equal.
  unfold csv_rows_of_audit, methods_in_audit.
  destruct (resources a) as [rs|]; [|reflexivity].
  induction rs as [|x rs IHrs]; simpl; [reflexivity|].
  rewrite length_app, IHrs. unfold csv_rows_of_resource.
  rewrite length_map. reflexivity.
Qed.

(** C5.  In csv mode a report whose ApiAudits all carry resources prints
    one line per method, in report order, made of the seven fields joined
    by commas as they are: no header, no quoting.  Scenario A prints its
    two lines. *)
Theorem csv_output :
  (forall r : AuditReport,
      Forall (fun a => resources a <> None) r ->
      run (print_audits "csv" (value_of_report r)) = (csv_rows r, Ok tt) /\
      length (csv_rows r) = list_sum (map methods_in_audit r)) /\
  (exists v,
      audit (client_of scenario_a) None = Ok v /\
      run (print_audits "csv" v)
      = (["Shop,a1,['REGIONAL'],/items,GET,NONE,False";
          "Shop,a1,['REGIONAL'],/items,POST,AWS_IAM,True"], Ok tt)).
Proof.
  split.
  - intros r H. split; [|apply csv_rows_count].
    unfold run, print_audits, value_of_report. simpl.
    unfold io_bind, lift. apply (print_apis_present r [] H).
  - eexists. split; reflexivity.
Qed.

Lemma csv_output_witness :
  run (print_audits "csv" (value_of_report [comma_audit]))
  = (["Shop, Inc.,a1,['REGIONAL', 'EDGE'],/items,GET,NONE,False"], Ok tt).
Proof.
  refine (proj1 (proj1 csv_output [comma_audit] _)).
  constructor; [discriminate | constructor].
Defined.

(** A report whose second ApiAudit has no resources: the two lines of the
    first are printed, then KeyError is raised. *)
Lemma csv_prints_before_failing :
  run (print_audits "csv" (value_of_report [shop_audit; bare_audit]))
  = (["Shop,a1,['REGIONAL'],/items,GET,NONE,False";
      "Shop,a1,['REGIONAL'],/items,POST,AWS_IAM,True"],
     Raise (KeyError "resources")).
Proof. reflexivity. Qed.

Lemma first_absent (r : AuditReport) :
  Exists (fun a => resources a = None) r ->
  exists pre a post,
    r = (pre ++ a :: post)%list /\
    Forall (fun x => resources x <> None) pre /\
    resources a = None.
Proof.
  induction r as [|x r IH]; intros H; [inversion H|].
  destruct (resources x) as [rs|] eqn:E.
  - inversion H as [? ? Hx|? ? Hr]; subst; [congruence|].
    destruct (IH Hr) as [pre [a [post [-> [Hpre Ha]]]]].
    exists (x :: pre), a, post. split; [reflexivity|].
    split; [|assumption]. constructor; [congruence | assumption].
  - exists [], x, r. split; [reflexivity|]. split; [constructor | assumption].
Qed.

(** C4, amended.  In csv mode a report with an ApiAudit that has no
    'resources' field raises KeyError('resources') at the first such
    ApiAudit: that API is not skipped, the lines of the ApiAudits before it
    have been printed, and nothing is printed after them. *)
Theorem csv_missing_resources (r : AuditReport) :
  Exists (fun a => resources a = None) r ->
  exists pre a post,
    r = (pre ++ a :: post)%list /\
    Forall (fun x => resources x <> None) pre /\
    resources a = None /\
    run (print_audits "csv" (value_of_report r))
    = (csv_rows pre, Raise (KeyError "resources")).
Proof.
  intros H. destruct (first_absent r H) as [pre [a [post [-> [Hpre Ha]]]]].
  exists pre, a, post. repeat split; try assumption.
  unfold run, print_audits, value_of_report. simpl.
  unfold io_bind at 1, lift at 1. simpl.
  rewrite map_app, io_for_app, (print_apis_present pre [] Hpre). simpl.
  unfold io_bind. rewrite (print_api_absent a _ Ha). reflexivity.
Qed.

Lemma csv_missing_resources_witness :
  exists pre a post,
    [shop_audit; bare_audit] = (pre ++ a :: post)%list /\
    Forall (fun x => resources x <> None) pre /\
    resources a = None /\
    run (print_audits "csv" (value_of_report [shop_audit; bare_audit]))
    = (csv_rows pre, Raise (KeyError "resources")).
Proof.
  apply (csv_missing_resources [shop_audit; bare_audit]).
  apply Exists_cons_tl. apply Exists_cons_hd. reflexivity.
Defined.

(** ** The formats *)

(** A format that is none of the three names is rendered as csv. *)
Lemma unknown_format_prints_csv :
  run (print_audits "xml" (value_of_report [shop_audit]))
  = (["Shop,a1,['REGIONAL'],/items,GET,NONE,False";
      "Shop,a1,['REGIONAL'],/items,POST,AWS_IAM,True"], Ok tt).
Proof. reflexivity. Qed.

(** C6, amended.  print_audits renders "json-pretty" and "json" as the two
    JSON forms and every other format value as csv; a format outside json,
    json-pretty and csv is refused only by the argument parser of main,
    which exits with status 2 before anything is printed and before the
    client is created. *)
Theorem print_audits_formats :
  (forall v, print_audits "json-pretty" v = print (json_dumps_pretty 0 v)) /\
  (forall v, print_audits "json" v = print (json_dumps v)) /\
  (forall format v,
      format <> "json-pretty" -> format <> "json" ->
      print_audits format v = print_audits "csv" v) /\
  (forall connect a f,
      arg_format a = Some f -> ~ In f format_choices ->
      run (main connect a) = ([], Raise (SystemExit 2))).
Proof.
  split; [reflexivity|]. split; [reflexivity|]. split.
  - intros format v H1 H2. rewrite (print_audits_csv format v H1 H2).
    reflexivity.
  - intros connect a f Hf Hin. unfold run, main, io_bind, lift, parse_args.
    rewrite Hf.
    destruct (existsb (String.eqb f) format_choices) eqn:E.
    + exfalso. apply Hin. apply existsb_exists in E.
      destruct E as [c [Hc Heq]]. apply String.eqb_eq in Heq. subst. exact Hc.
    + destruct (arg_methods a) as [[|m ms]|]; reflexivity.
Qed.

Lemma print_audits_formats_witness :
  print_audits "xml" (value_of_report [shop_audit])
  = print_audits "csv" (value_of_report [shop_audit]).
Proof.
  apply (proj1 (proj2 (proj2 print_audits_formats))); discriminate.
Defined.

(** ** Reading back what json.dumps writes *)

Lemma append_assoc (a b c : string) : (a ++ b) ++ c = a ++ (b ++ c).
Proof. induction a as [|x a IH]; simpl; [reflexivity | rewrite IH; reflexivity]. Qed.

Lemma append_nil_r (a : string) : a ++ EmptyString = a.
Proof. induction a as [|x a IH]; simpl; [reflexivity | rewrite IH; reflexivity]. Qed.

Lemma length_append (a b : string) :
  String.length (a ++ b) = String.length a + String.length b.
Proof. induction a as [|x a IH]; simpl; [reflexivity | rewrite IH; reflexivity]. Qed.

Lemma join_cons (sep x y : string) (l : list string) :
  join sep (x :: y :: l) = x ++ sep ++ join sep (y :: l).
Proof. reflexivity. Qed.

Lemma concat_chars (x : string) (l : list string) :
  String.concat EmptyString (x :: l) = x ++ String.concat EmptyString l.
Proof.
  destruct l as [|y l]; simpl; [rewrite append_nil_r|]; reflexivity.
Qed.

(** Every character, as json.dumps escapes it, is read back as itself. *)
Lemma scan_json_char (c : ascii) (t : string) :
  scan_string (json_char c ++ t) = push c (scan_string t).
Proof.
  destruct c as [[] [] [] [] [] [] [] []]; reflexivity.
Qed.

Lemma scan_json_chars (s rest : string) :
  scan_string (String.concat EmptyString (map json_char (list_ascii_of_string s))
                 ++ String dquote rest)
  = Some (s, rest).
Proof.
  induction s as [|c s IH].
  - reflexivity.
  - cbn [list_ascii_of_string map]. rewrite concat_chars, append_assoc.
    rewrite scan_json_char, IH. reflexivity.
Qed.

Lemma json_str_append (s rest : string) :
  json_str s ++ rest
  = String dquote
      (String.concat EmptyString (map json_char (list_ascii_of_string s))
         ++ String dquote rest).
Proof.
  unfold json_str, str1. simpl. rewrite append_assoc. reflexivity.
Qed.

Lemma scan_json_str (s rest : string) :
  exists body, json_str s ++ rest = String dquote body /\
               scan_string body = Some (s, rest).
Proof.
  eexists. split; [apply json_str_append | apply scan_json_chars].
Qed.

(** *** Integers *)

Lemma delimited_no_digit (rest : string) :
  delimited rest = true ->
  match rest with
  | String c _ => is_digit c = false
  | EmptyString => True
  end.
Proof.
  destruct rest as [|c r]; simpl; [trivial|].
  destruct (Ascii.eqb_spec c ","); [subst; reflexivity|].
  destruct (Ascii.eqb_spec c "]"); [subst; reflexivity|].
  destruct (Ascii.eqb_spec c "}"); [subst; reflexivity | discriminate].
Qed.

Lemma delimited_no_float (rest : string) :
  delimited rest = true -> float_tail rest = false.
Proof.
  destruct rest as [|c [|d r]]; simpl; try reflexivity.
  destruct (Ascii.eqb_spec c ","); [subst; reflexivity|].
  destruct (Ascii.eqb_spec c "]"); [subst; reflexivity|].
  destruct (Ascii.eqb_spec c "}"); [subst; reflexivity | discriminate].
Qed.

Lemma take_digits_uint (d : Decimal.uint) (rest : string) :
  match rest with
  | String c _ => is_digit c = false
  | EmptyString => True
  end ->
  take_digits (NilEmpty.string_of_uint d ++ rest)
  = (NilEmpty.string_of_uint d, rest).
Proof.
  intros H. induction d; simpl; try (rewrite IHd; reflexivity).
  destruct rest as [|c r]; simpl; [reflexivity | rewrite H; reflexivity].
Qed.

Lemma to_uint_normal (p : positive) :
  Pos.to_uint p = Decimal.unorm (Pos.to_uint p).
Proof.
  rewrite <- (DecimalPos.Unsigned.to_of (Pos.to_uint p)).
  rewrite DecimalPos.Unsigned.of_to. reflexivity.
Qed.

(** The decimal text of a positive number: a non-zero digit, then
    digits. *)
Lemma to_uint_head (p : positive) :
  exists c r,
    NilZero.string_of_uint (Pos.to_uint p) = String c r /\
    NilEmpty.string_of_uint (Pos.to_uint p) = String c r /\
    is_digit c = true /\ Ascii.eqb c "0" = false.
Proof.
  pose proof (to_uint_normal p) as Hn.
  pose proof (DecimalPos.Unsigned.to_uint_nonzero p) as Hz.
  pose proof (DecimalFacts.nzhead_nonzero (Pos.to_uint p)) as Hh.
  unfold Decimal.unorm in Hn.
  destruct (Decimal.nzhead (Pos.to_uint p)) eqn:E;
    try (exfalso; apply Hz; exact Hn);
    try (exfalso; eapply Hh; reflexivity);
    rewrite Hn; simpl; eexists; eexists; repeat split.
Qed.

Lemma digit_not_minus (c : ascii) :
  is_digit c = true -> Ascii.eqb c "-" = false.
Proof.
  destruct (Ascii.eqb_spec c "-"); [subst; discriminate | reflexivity].
Qed.

Lemma scan_number_int (z : Z) (rest : string) :
  delimited rest = true ->
  scan_number (str_int z ++ rest) = Some (VInt z, rest).
Proof.
  intros Hd. pose proof (delimited_no_float rest Hd) as Hf.
  pose proof (delimited_no_digit rest Hd) as Hg.
  destruct z as [|p|p]; unfold str_int.
  - unfold scan_number. simpl. rewrite Hf. reflexivity.
  - destruct (to_uint_head p) as [c [r [H0 [H1 [Hc Hnz]]]]].
    pose proof (take_digits_uint (Pos.to_uint p) rest Hg) as Ht.
    pose proof (NilZero.isi (Z.to_int (Z.pos p))) as Hi.
    pose proof (DecimalZ.of_to (Z.pos p)) as Hz.
    cbn [Z.to_int NilZero.string_of_int] in *.
    rewrite H0 in *. rewrite H1 in Ht. simpl in Ht.
    rewrite Hc in Ht. unfold scan_number. simpl.
    rewrite (digit_not_minus c Hc). simpl. rewrite Hnz, Hc.
    destruct (take_digits (r ++ rest)) as [ds rest'].
    injection Ht as -> ->. rewrite Hf.
    rewrite Hi; [rewrite Hz; reflexivity | | discriminate].
    intros H. injection H as H.
    exact (DecimalPos.Unsigned.to_uint_nonnil p H).
  - destruct (to_uint_head p) as [c [r [H0 [H1 [Hc Hnz]]]]].
    pose proof (take_digits_uint (Pos.to_uint p) rest Hg) as Ht.
    pose proof (NilZero.isi (Z.to_int (Z.neg p))) as Hi.
    pose proof (DecimalZ.of_to (Z.neg p)) as Hz.
    cbn [Z.to_int NilZero.string_of_int] in *.
    rewrite H0 in *. rewrite H1 in Ht. simpl in Ht.
    rewrite Hc in Ht. unfold scan_number. simpl.
    rewrite Hnz, Hc.
    destruct (take_digits (r ++ rest)) as [ds rest'].
    injection Ht as -> ->. rewrite Hf.
    assert (Hnil : Decimal.Neg (Pos.to_uint p) <> Decimal.Neg Decimal.Nil).
    { intros H. injection H as H.
      exact (DecimalPos.Unsigned.to_uint_nonnil p H). }
    specialize (Hi ltac:(discriminate) Hnil).
    change (option_map Decimal.Neg (NilZero.uint_of_string (String c r)))
      with (NilZero.int_of_string (String "-" (String c r))).
    rewrite Hi, Hz. reflexivity.
Qed.

Lemma str_int_head (z : Z) :
  exists c r, str_int z = String c r /\
              (is_digit c = true \/ c = "-"%char).
Proof.
  destruct z as [|p|p]; unfold str_int; simpl.
  - eexists; eexists; split; [reflexivity | left; reflexivity].
  - destruct (to_uint_head p) as [c [r [H0 [_ [Hc _]]]]].
    rewrite H0. eauto.
  - eexists; eexists; split; [reflexivity | right; reflexivity].
Qed.

(** *** Nested values *)

(** The first character of a JSON text is neither white space nor a
    closing bracket. *)
Lemma json_dumps_head (v : value) :
  exists c r, json_dumps v = String c r /\
              is_ws c = false /\ Ascii.eqb c "]" = false.
Proof.
  destruct v as [|[]|z|s|[|x l]|[|kv d]];
    try (eexists; eexists; split; [reflexivity | split; reflexivity]).
  destruct (str_int_head z) as [c [r [H [Hc | ->]]]].
  - exists c, r. split; [exact H|].
    unfold is_ws.
    destruct (Ascii.eqb_spec c " "); [subst; discriminate|].
    destruct (Ascii.eqb_spec c (ascii_of_nat 9)); [subst; discriminate|].
    destruct (Ascii.eqb_spec c (ascii_of_nat 10)); [subst; discriminate|].
    destruct (Ascii.eqb_spec c (ascii_of_nat 13)); [subst; discriminate|].
    destruct (Ascii.eqb_spec c "]"); [subst; discriminate|].
    split; reflexivity.
  - exists "-"%char, r. split; [exact H | split; reflexivity].
Qed.

Lemma json_dumps_length (v : value) : 1 <= String.length (json_dumps v).
Proof.
  destruct (json_dumps_head v) as [c [r [-> _]]]. simpl. lia.
Qed.

Lemma join_length_part (sep p : string) (parts : list string) :
  In p parts -> String.length p <= String.length (join sep parts).
Proof.
  induction parts as [|x [|y l] IH]; intros H; [contradiction| |].
  - destruct H as [->|[]]. simpl. lia.
  - rewrite join_cons, !length_append.
    destruct H as [->|H]; [lia|]. specialize (IH H). lia.
Qed.

Lemma join_length_count (sep : string) (parts : list string) :
  Forall (fun p => 1 <= String.length p) parts ->
  length parts <= String.length (join sep parts).
Proof.
  induction parts as [|x [|y l] IH]; intros H; [simpl; lia| |].
  - inversion H; subst. simpl. lia.
  - inversion H; subst. rewrite join_cons, !length_append.
    specialize (IH ltac:(assumption)). simpl in *. lia.
Qed.

(** The text of a non-empty list starts like the text of its first
    element. *)
Lemma join_head (sep x : string) (l : list string) :
  exists t, join sep (x :: l) = x ++ t.
Proof.
  destruct l as [|y l].
  - exists EmptyString. simpl. rewrite append_nil_r. reflexivity.
  - eexists. apply join_cons.
Qed.

(** *** The array loop *)

Lemma comma_space (t : string) : ", " ++ t = String "," (String " " t).
Proof. reflexivity. Qed.

Lemma skip_ws_space (t : string) : skip_ws (String " " t) = skip_ws t.
Proof. reflexivity. Qed.

Lemma skip_ws_dumps (v : value) (t : string) :
  skip_ws (json_dumps v ++ t) = json_dumps v ++ t.
Proof.
  destruct (json_dumps_head v) as [c [r [-> [Hws _]]]]. simpl.
  rewrite Hws. reflexivity.
Qed.

Lemma scan_elements_close (scan : string -> option (value * string))
    (k : nat) (s r t : string) (x : value) :
  scan s = Some (x, r) -> skip_ws r = String "]" t ->
  scan_elements scan (S k) s = Some ([x], t).
Proof. intros H1 H2. simpl. rewrite H1, H2. reflexivity. Qed.

Lemma scan_elements_comma (scan : string -> option (value * string))
    (k : nat) (s r t : string) (x : value) :
  scan s = Some (x, r) -> skip_ws r = String "," t ->
  scan_elements scan (S k) s
  = match scan_elements scan k (skip_ws t) with
    | Some (vs, r2) => Some (x :: vs, r2)
    | None => None
    end.
Proof. intros H1 H2. simpl. rewrite H1, H2. reflexivity. Qed.

Lemma scan_elements_dumps (scan : string -> option (value * string))
    (l : list value) :
  l <> [] ->
  Forall (fun x => forall rest, delimited rest = true ->
                                scan (json_dumps x ++ rest) = Some (x, rest)) l ->
  forall k rest,
    length l <= k ->
    scan_elements scan k (join ", " (map json_dumps l) ++ String "]" rest)
    = Some (l, rest).
Proof.
  intros Hne H. induction H as [|x l Hx Hl IH]; [congruence|].
  intros k rest Hk. destruct k as [|k]; [simpl in Hk; lia|].
  destruct l as [|y l].
  - apply (scan_elements_close scan k _ (String "]" rest)); [|reflexivity].
    apply Hx. reflexivity.
  - cbn [map]. rewrite join_cons, !append_assoc, comma_space.
    rewrite (scan_elements_comma scan k _ _ _ x
               (Hx (String "," _) eq_refl) eq_refl).
    rewrite skip_ws_space.
    destruct (join_head ", " (json_dumps y) (map json_dumps l)) as [t Ht].
    rewrite Ht, append_assoc, skip_ws_dumps, <- append_assoc, <- Ht.
    cbn [map] in IH. rewrite IH; [reflexivity | discriminate | simpl in *; lia].
Qed.

(** *** The object loop *)

Lemma colon_space (t : string) : ": " ++ t = String ":" (String " " t).
Proof. reflexivity. Qed.

Lemma skip_ws_json_str (s t : string) :
  skip_ws (json_str s ++ t) = json_str s ++ t.
Proof. rewrite json_str_append. reflexivity. Qed.

Lemma scan_members_close (scan : string -> option (value * string))
    (k : nat) (r r1 r2 r3 r4 key : string) (x : value) :
  scan_string r = Some (key, r1) -> skip_ws r1 = String ":" r2 ->
  scan (skip_ws r2) = Some (x, r3) -> skip_ws r3 = String "}" r4 ->
  scan_members scan (S k) (String dquote r) = Some ([(key, x)], r4).
Proof.
  intros H1 H2 H3 H4. simpl. rewrite H1, H2. simpl. rewrite H3, H4.
  reflexivity.
Qed.

Lemma scan_members_comma (scan : string -> option (value * string))
    (k : nat) (r r1 r2 r3 r4 key : string) (x : value) :
  scan_string r = Some (key, r1) -> skip_ws r1 = String ":" r2 ->
  scan (skip_ws r2) = Some (x, r3) -> skip_ws r3 = String "," r4 ->
  scan_members scan (S k) (String dquote r)
  = match scan_members scan k (skip_ws r4) with
    | Some (ps, r5) => Some ((key, x) :: ps, r5)
    | None => None
    end.
Proof.
  intros H1 H2 H3 H4. simpl. rewrite H1, H2. simpl. rewrite H3, H4.
  reflexivity.
Qed.

Lemma skip_ws_members (kv : string * value) (d : list (string * value))
    (u : string) :
  skip_ws (join ", " (map (fun kv => match kv with
                                     | (key, x) =>
                                         json_str key ++ ": " ++ json_dumps x
                                     end) (kv :: d)) ++ u)
  = join ", " (map (fun kv => match kv with
                              | (key, x) => json_str key ++ ": " ++ json_dumps x
                              end) (kv :: d)) ++ u.
Proof.
  destruct kv as [key y]. cbn [map].
  match goal with
  | |- context [join ", " (?m :: ?ms)] =>
      destruct (join_head ", " m ms) as [t ->]
  end.
  rewrite !append_assoc. apply skip_ws_json_str.
Qed.

Lemma scan_members_dumps (scan : string -> option (value * string))
    (d : list (string * value)) :
  d <> [] ->
  Forall (fun kv => forall rest, delimited rest = true ->
                                 scan (json_dumps (snd kv) ++ rest)
                                 = Some (snd kv, rest)) d ->
  forall k rest,
    length d <= k ->
    scan_members scan k
      (join ", " (map (fun kv => match kv with
                                 | (key, x) => json_str key ++ ": " ++ json_dumps x
                                 end) d) ++ String "}" rest)
    = Some (d, rest).
Proof.
  intros Hne H. induction H as [|[key x] d Hx Hd IH]; [congruence|].
  intros k rest Hk. destruct k as [|k]; [simpl in Hk; lia|].
  simpl in Hx. destruct d as [|[key' y] d].
  - cbn [map join String.concat]. rewrite !append_assoc, colon_space.
    destruct (scan_json_str key
                (String ":" (String " " (json_dumps x ++ String "}" rest))))
      as [body [-> Hbody]].
    eapply scan_members_close;
      [ exact Hbody | reflexivity
      | rewrite skip_ws_space, skip_ws_dumps; apply Hx; reflexivity
      | reflexivity ].
  - cbn [map]. rewrite join_cons, !append_assoc, colon_space, comma_space.
    match goal with
    | |- scan_members _ _ (json_str key ++ ?t) = _ =>
        destruct (scan_json_str key t) as [body [-> Hbody]]
    end.
    erewrite scan_members_comma;
      [ | exact Hbody | reflexivity
        | rewrite skip_ws_space, skip_ws_dumps; apply Hx; reflexivity
        | reflexivity ].
    rewrite skip_ws_space.
    change (skip_ws ?t) with
      (skip_ws (join ", " (map (fun kv => match kv with
                                          | (key, x) =>
                                              json_str key ++ ": " ++ json_dumps x
                                          end) ((key', y) :: d))
                ++ String "}" rest)).
    rewrite skip_ws_members.
    rewrite IH; [reflexivity | discriminate | simpl in *; lia].
Qed.

(** *** dict(pairs) on distinct keys *)

Lemma distinct_app_fresh (l1 l2 : list string) (k : string) :
  distinct (l1 ++ k :: l2) = true -> existsb (String.eqb k) l1 = false.
Proof.
  induction l1 as [|x l1 IH]; simpl; [reflexivity|].
  intros H. apply andb_prop in H. destruct H as [Hx Hrest].
  rewrite (IH Hrest), orb_false_r.
  apply negb_true_iff in Hx. rewrite existsb_app in Hx.
  apply orb_false_elim in Hx. destruct Hx as [_ Hx]. simpl in Hx.
  apply orb_false_elim in Hx. destruct Hx as [Hx _].
  rewrite String.eqb_sym. exact Hx.
Qed.

Lemma dict_set_fresh (k : string) (v : value) (d : list (string * value)) :
  existsb (String.eqb k) (map fst d) = false ->
  dict_set k v d = (d ++ [(k, v)])%list.
Proof.
  induction d as [|[k' v'] d IH]; simpl; [reflexivity|].
  intros H. apply orb_false_elim in H. destruct H as [H1 H2].
  rewrite H1, (IH H2). reflexivity.
Qed.

Lemma dict_of_distinct_pairs (ps acc : list (string * value)) :
  distinct (map fst (acc ++ ps)) = true ->
  fold_left (fun d kv => dict_set (fst kv) (snd kv) d) ps acc
  = (acc ++ ps)%list.
Proof.
  revert acc. induction ps as [|[k v] ps IH]; intros acc H; simpl.
  - rewrite app_nil_r. reflexivity.
  - rewrite dict_set_fresh.
    + rewrite IH; rewrite <- app_assoc; [reflexivity | exact H].
    + rewrite map_app in H. simpl in H. exact (distinct_app_fresh _ _ _ H).
Qed.

Lemma dict_of_pairs_distinct (d : list (string * value)) :
  distinct (map fst d) = true -> dict_of_pairs d = d.
Proof. intros H. apply (dict_of_distinct_pairs d [] H). Qed.

(** *** One value *)

Lemma scan_once_number (depth : nat) (c : ascii) (r : string) :
  is_digit c = true \/ c = "-"%char ->
  scan_once (S depth) (String c r) = scan_number (String c r).
Proof.
  intros H.
  assert (Hq : Ascii.eqb c dquote = false /\ Ascii.eqb c "{" = false /\
               Ascii.eqb c "[" = false /\ Ascii.eqb "n" c = false /\
               Ascii.eqb "t" c = false /\ Ascii.eqb "f" c = false).
  { destruct H as [H | ->]; [|repeat split; reflexivity].
    repeat split;
      match goal with
      | |- Ascii.eqb ?a ?b = false =>
          destruct (Ascii.eqb_spec a b); [subst; discriminate | reflexivity]
      end. }
  destruct Hq as [H1 [H2 [H3 [H4 [H5 H6]]]]].
  cbn [scan_once strip_prefix]. rewrite H1, H2, H3, H4, H5, H6. reflexivity.
Qed.

Lemma scan_once_list (depth : nat) (c : ascii) (r : string) :
  is_ws c = false -> Ascii.eqb c "]" = false ->
  scan_once (S depth) (String "[" (String c r))
  = match scan_elements (scan_once depth) (String.length (String c r))
            (String c r) with
    | Some (vs, rest) => Some (VList vs, rest)
    | None => None
    end.
Proof.
  intros Hws Hc. cbn [scan_once]. cbn [skip_ws]. rewrite Hws, Hc. reflexivity.
Qed.

Lemma scan_once_dict (depth : nat) (r : string) :
  scan_once (S depth) (String "{" (String dquote r))
  = match scan_members (scan_once depth) (String.length (String dquote r))
            (String dquote r) with
    | Some (ps, rest) => Some (VDict (dict_of_pairs ps), rest)
    | None => None
    end.
Proof. reflexivity. Qed.

Lemma proper_list (l : list value) (x : value) :
  proper (VList l) = true -> In x l -> proper x = true.
Proof.
  simpl. intros H Hin. rewrite forallb_forall in H. exact (H x Hin).
Qed.

Lemma proper_dict (d : list (string * value)) :
  proper (VDict d) = true ->
  distinct (map fst d) = true /\
  forall kv, In kv d -> proper (snd kv) = true.
Proof.
  simpl. intros H. apply andb_prop in H. destruct H as [H1 H2].
  split; [exact H1|]. intros [k x] Hin. rewrite forallb_forall in H2.
  exact (H2 (k, x) Hin).
Qed.

(** What json.dumps writes for a value is read back as that value, and the
    text that follows is left over. *)
Lemma scan_once_dumps (v : value) :
  proper v = true ->
  forall depth rest,
    String.length (json_dumps v) <= depth ->
    delimited rest = true ->
    scan_once depth (json_dumps v ++ rest) = Some (v, rest).
Proof.
  induction v as [|b|z|s|l IH|d IH] using value_nested_ind;
    intros Hp depth rest Hlen Hrest.
  - destruct depth as [|depth]; [simpl in Hlen; lia | reflexivity].
  - destruct depth as [|depth]; [destruct b; simpl in Hlen; lia|].
    destruct b; reflexivity.
  - destruct depth as [|depth];
      [pose proof (json_dumps_length (VInt z)); lia|].
    cbn [json_dumps]. destruct (str_int_head z) as [c [r [Hz Hc]]].
    pose proof (scan_number_int z rest Hrest) as Hn.
    rewrite Hz in *. cbn [append] in *.
    rewrite (scan_once_number depth c _ Hc). exact Hn.
  - destruct depth as [|depth];
      [pose proof (json_dumps_length (VStr s)); lia|].
    cbn [json_dumps]. destruct (scan_json_str s rest) as [body [-> Hbody]].
    cbn [scan_once]. change (Ascii.eqb dquote dquote) with true.
    cbn iota. rewrite Hbody. reflexivity.
  - destruct l as [|x l].
    + destruct depth as [|depth]; [simpl in Hlen; lia | reflexivity].
    + destruct depth as [|depth]; [simpl in Hlen; lia|].
      change (json_dumps (VList (x :: l)))
        with (String "[" (join ", " (map json_dumps (x :: l)) ++ "]")) in *.
      cbn [append String.length] in Hlen. rewrite length_append in Hlen.
      cbn [append]. rewrite append_assoc.
      change ("]" ++ rest) with (String "]" rest).
      assert (Hbody : exists c r,
                 join ", " (map json_dumps (x :: l)) ++ String "]" rest
                 = String c r /\ is_ws c = false /\ Ascii.eqb c "]" = false).
      { cbn [map].
        destruct (join_head ", " (json_dumps x) (map json_dumps l)) as [t ->].
        destruct (json_dumps_head x) as [c [r [-> [Hws Hc]]]].
        eexists; eexists. split; [reflexivity | split; assumption]. }
      destruct Hbody as [c [r [Hbody [Hws Hc]]]].
      rewrite Hbody, (scan_once_list depth c r Hws Hc), <- Hbody.
      rewrite scan_elements_dumps; [reflexivity | discriminate | |].
      * rewrite Forall_forall in *. intros y Hy rest' Hrest'.
        apply (IH y Hy); [exact (proper_list _ _ Hp Hy) | | exact Hrest'].
        pose proof (join_length_part ", " (json_dumps y)
                      (map json_dumps (x :: l)) (in_map json_dumps _ _ Hy)).
        simpl in *. lia.
      * rewrite length_append.
        pose proof (join_length_count ", " (map json_dumps (x :: l))) as Hc'.
        rewrite length_map in Hc'.
        assert (Hall : Forall (fun p => 1 <= String.length p)
                         (map json_dumps (x :: l))).
        { rewrite Forall_forall. intros p Hin. apply in_map_iff in Hin.
          destruct Hin as [y [<- _]]. apply json_dumps_length. }
        specialize (Hc' Hall). lia.
  - destruct d as [|[key x] d].
    + destruct depth as [|depth]; [simpl in Hlen; lia | reflexivity].
    + destruct depth as [|depth]; [simpl in Hlen; lia|].
      destruct (proper_dict _ Hp) as [Hkeys Hvals].
      set (member := fun kv : string * value =>
                       match kv with
                       | (k, y) => json_str k ++ ": " ++ json_dumps y
                       end).
      change (json_dumps (VDict ((key, x) :: d)))
        with (String "{" (join ", " (map member ((key, x) :: d)) ++ "}")) in *.
      cbn [append String.length] in Hlen. rewrite length_append in Hlen.
      cbn [append]. rewrite append_assoc.
      change ("}" ++ rest) with (String "}" rest).
      assert (Hbody : exists r,
                 join ", " (map member ((key, x) :: d)) ++ String "}" rest
                 = String dquote r).
      { cbn [map].
        destruct (join_head ", " (member (key, x)) (map member d)) as [t ->].
        unfold member at 1. rewrite !append_assoc, json_str_append.
        eexists. reflexivity. }
      destruct Hbody as [r Hbody].
      rewrite Hbody, (scan_once_dict depth r), <- Hbody.
      unfold member. rewrite scan_members_dumps;
        [rewrite (dict_of_pairs_distinct _ Hkeys); reflexivity
        | discriminate | |].
      * rewrite Forall_forall in *. intros [k y] Hy rest' Hrest'.
        apply (IH (k, y) Hy); [exact (Hvals (k, y) Hy) | | exact Hrest'].
        pose proof (join_length_part ", " (member (k, y))
                      (map member ((key, x) :: d)) (in_map member _ _ Hy)) as Hl.
        unfold member at 1 in Hl. rewrite !length_append in Hl.
        fold member in Hlen. simpl in *. lia.
      * fold member. rewrite length_append.
        pose proof (join_length_count ", " (map member ((key, x) :: d))) as Hc'.
        rewrite length_map in Hc'.
        assert (Hall : Forall (fun p => 1 <= String.length p)
                         (map member ((key, x) :: d))).
        { rewrite Forall_forall. intros p Hin. apply in_map_iff in Hin.
          destruct Hin as [[k y] [<- _]]. unfold member.
          rewrite json_str_append. simpl. lia. }
        specialize (Hc' Hall). lia.
Qed.

Lemma json_loads_dumps (v : value) :
  proper v = true -> json_loads (json_dumps v) = Some v.
Proof.
  intros Hp. unfold json_loads.
  pose proof (skip_ws_dumps v EmptyString) as Hs.
  pose proof (scan_once_dumps v Hp (S (String.length (json_dumps v)))
                EmptyString ltac:(lia) eq_refl) as H.
  rewrite append_nil_r in *. rewrite Hs, H. reflexivity.
Qed.

(** *** Reports *)

Lemma all_some_map {A B} (f : A -> value) (g : value -> option B)
    (h : A -> B) (l : list A) :
  (forall x, g (f x) = Some (h x)) ->
  all_some (map g (map f l)) = Some (map h l).
Proof.
  intros H. induction l as [|x l IH]; simpl; [reflexivity|].
  rewrite H, IH. reflexivity.
Qed.

Lemma strings_read_back (l : list string) :
  list_of_value string_of_value (strings l) = Some l.
Proof.
  unfold list_of_value, strings.
  rewrite (all_some_map VStr string_of_value (fun s => s)); [|reflexivity].
  rewrite map_id. reflexivity.
Qed.

Lemma method_read_back (m : MethodSecurity) :
  method_of_value (value_of_method m) = Some m.
Proof. destruct m. reflexivity. Qed.

Lemma resource_read_back (r : Resource) :
  resource_of_value (value_of_resource r) = Some r.
Proof.
  destruct r as [p ms]. unfold resource_of_value, value_of_resource. simpl.
  rewrite (all_some_map value_of_method method_of_value (fun m => m));
    [|apply method_read_back].
  rewrite map_id. reflexivity.
Qed.

Lemma audit_read_back (a : ApiAudit) :
  audit_of_value (value_of_audit a) = Some a.
Proof.
  destruct a as [i n ts rs]. unfold audit_of_value, value_of_audit.
  cbn [apiId a_name a_endpointTypes resources].
  pose proof (strings_read_back ts) as Hs.
  pose proof (all_some_map value_of_resource resource_of_value (fun r => r))
    as Hr.
  unfold list_of_value, strings in *.
  destruct rs as [rs|]; simpl.
  - rewrite Hs, (Hr rs resource_read_back), map_id. reflexivity.
  - rewrite Hs. reflexivity.
Qed.

Lemma report_read_back (r : AuditReport) :
  report_of_value (value_of_report r) = Some r.
Proof.
  unfold report_of_value, value_of_report, list_of_value.
  rewrite (all_some_map value_of_audit audit_of_value (fun a => a));
    [|apply audit_read_back].
  rewrite map_id. reflexivity.
Qed.

Lemma forallb_map_true {A} (f : A -> value) (l : list A) :
  (forall x, proper (f x) = true) -> forallb proper (map f l) = true.
Proof.
  intros H. induction l as [|x l IH]; simpl; [reflexivity|].
  rewrite H, IH. reflexivity.
Qed.

Lemma proper_method (m : MethodSecurity) : proper (value_of_method m) = true.
Proof. reflexivity. Qed.

Lemma proper_resource (r : Resource) : proper (value_of_resource r) = true.
Proof.
  unfold value_of_resource. simpl.
  rewrite (forallb_map_true value_of_method _ proper_method). reflexivity.
Qed.

Lemma proper_strings (l : list string) : proper (strings l) = true.
Proof. apply (forallb_map_true VStr). reflexivity. Qed.

Lemma proper_audit (a : ApiAudit) : proper (value_of_audit a) = true.
Proof.
  unfold value_of_audit. pose proof (proper_strings (a_endpointTypes a)) as Hs.
  destruct (resources a) as [rs|]; simpl in *.
  - rewrite Hs, (forallb_map_true value_of_resource _ proper_resource).
    reflexivity.
  - rewrite Hs. reflexivity.
Qed.

Lemma proper_report (r : AuditReport) : proper (value_of_report r) = true.
Proof. apply (forallb_map_true value_of_audit _ proper_audit). Qed.

(** C9.  What json mode prints for a report, read back with json.loads, is
    the value that was printed, and reading the records out of it by key
    gives the report again: the same fields are present (an absent
    'resources' stays absent) with the same values. *)
Theorem json_round_trip (r : AuditReport) :
  exists text v,
    run (print_audits "json" (value_of_report r)) = ([text], Ok tt) /\
    json_loads text = Some v /\
    v = value_of_report r /\
    report_of_value v = Some r.
Proof.
  exists (json_dumps (value_of_report r)), (value_of_report r).
  split; [reflexivity|].
  split; [apply json_loads_dumps, proper_report|].
  split; [reflexivity | apply report_read_back].
Qed.

(** * Further properties *)

(** ** The shape of what audit returns *)

(** A property of the accumulator that every iteration keeps holds when the
    loop ends. *)
Lemma for_each_invariant {A B} (P : B -> Prop) (body : B -> A -> result B)
    (xs : list A) :
  (forall acc x acc', In x xs -> P acc -> body acc x = Ok acc' -> P acc') ->
  forall acc out, P acc -> for_each body xs acc = Ok out -> P out.
Proof.
  induction xs as [|x xs IH]; intros Hstep acc out Hacc H; simpl in H.
  - injection H as <-. exact Hacc.
  - apply bind_ok in H. destruct H as [acc' [Hx H]].
    apply (IH (fun a y a' Hin => Hstep a y a' (or_intror Hin)) acc' out);
      [|exact H].
    exact (Hstep acc x acc' (or_introl eq_refl) Hacc Hx).
Qed.

Lemma forallb_snoc {A} (f : A -> bool) (l : list A) (x : A) :
  forallb f (l ++ [x]) = forallb f l && f x.
Proof. rewrite forallb_app. simpl. rewrite andb_true_r. reflexivity. Qed.

Lemma parse_method_shape (methods : option (list string))
    (acc acc' : list value) (kv : string * value) :
  forallb shaped_method acc = true ->
  parse_method methods acc kv = Ok acc' ->
  forallb shaped_method acc' = true.
Proof.
  intros Hacc H. unfold parse_method in H.
  apply bind_ok in H. destruct H as [verb [_ H]].
  destruct (selected methods verb); [|injection H as <-; exact Hacc].
  apply bind_ok in H. destruct H as [a [_ H]].
  apply bind_ok in H. destruct H as [k [_ H]].
  injection H as <-. rewrite forallb_snoc, Hacc. reflexivity.
Qed.

Lemma parse_resource_shape (methods : option (list string))
    (resource out : value) :
  parse_resource methods resource = Ok out ->
  out = VNone \/ shaped_resource out = true.
Proof.
  intros H. unfold parse_resource in H.
  apply bind_ok in H. destruct H as [p [_ H]].
  apply bind_ok in H. destruct H as [has [_ H]].
  apply bind_ok in H. destruct H as [parsed [Hparsed H]].
  assert (Hs : forallb shaped_method parsed = true).
  { destruct has; [|injection Hparsed as <-; reflexivity].
    apply bind_ok in Hparsed. destruct Hparsed as [mapping [_ Hparsed]].
    apply bind_ok in Hparsed. destruct Hparsed as [es [_ Hparsed]].
    apply (for_each_invariant (fun acc => forallb shaped_method acc = true)
             (parse_method methods) es) with (acc := []);
      [|reflexivity | exact Hparsed].
    intros acc x acc' _. apply parse_method_shape. }
  destruct parsed as [|m ms]; simpl in H; injection H as <-.
  - left. reflexivity.
  - right. unfold shaped_resource. rewrite Hs. reflexivity.
Qed.

Lemma collect_resource_shape (methods : option (list string))
    (acc acc' : list value) (item : value) :
  forallb shaped_resource acc = true ->
  collect_resource methods acc item = Ok acc' ->
  forallb shaped_resource acc' = true.
Proof.
  intros Hacc H. unfold collect_resource in H.
  apply bind_ok in H. destruct H as [out [Hout H]].
  destruct (parse_resource_shape _ _ _ Hout) as [-> | Hs].
  - injection H as <-. exact Hacc.
  - assert (acc' = (acc ++ [out])%list) as ->.
    { destruct out; injection H as <-; try reflexivity. discriminate. }
    rewrite forallb_snoc, Hacc, Hs. reflexivity.
Qed.

Lemma audit_item_shape (apigw : client) (methods : option (list string))
    (acc acc' : list value) (item : value) :
  audit_item apigw methods acc item = Ok acc' ->
  exists d, acc' = (acc ++ [d])%list /\ shaped_audit d = true.
Proof.
  intros H. unfold audit_item in H.
  apply bind_ok in H. destruct H as [i [_ H]].
  apply bind_ok in H. destruct H as [n [_ H]].
  apply bind_ok in H. destruct H as [conf [_ H]].
  apply bind_ok in H. destruct H as [ts [_ H]].
  apply bind_ok in H. destruct H as [resp [_ H]].
  apply bind_ok in H. destruct H as [its [_ H]].
  apply bind_ok in H. destruct H as [d [Hd H]].
  injection H as <-. eexists. split; [reflexivity|].
  destruct (truthy its); [|injection Hd as <-; reflexivity].
  apply bind_ok in Hd. destruct Hd as [seq [_ Hd]].
  apply bind_ok in Hd. destruct Hd as [rs [Hrs Hd]].
  assert (Hs : forallb shaped_resource rs = true).
  { apply (for_each_invariant (fun acc => forallb shaped_resource acc = true)
             (collect_resource methods) seq) with (acc := []);
      [|reflexivity | exact Hrs].
    intros a x a' _. apply collect_resource_shape. }
  destruct rs as [|r rs]; injection Hd as <-; [reflexivity|].
  unfold shaped_audit. simpl app. rewrite Hs. reflexivity.
Qed.

Lemma audit_items_shape (apigw : client) (methods : option (list string))
    (seq : list value) :
  forall acc out,
    for_each (audit_item apigw methods) seq acc = Ok out ->
    exists ds, out = (acc ++ ds)%list /\ length ds = length seq /\
               forallb shaped_audit ds = true.
Proof.
  induction seq as [|x seq IH]; intros acc out H; simpl in H.
  - injection H as <-. exists []. rewrite app_nil_r. repeat split.
  - apply bind_ok in H. destruct H as [acc' [Hx H]].
    destruct (audit_item_shape _ _ _ _ _ Hx) as [d [-> Hd]].
    destruct (IH _ _ H) as [ds [-> [Hlen Hs]]].
    exists (d :: ds). rewrite <- app_assoc. simpl.
    rewrite Hlen, Hd, Hs. repeat split.
Qed.

Lemma audit_result_shape (apigw : client) (methods : option (list string))
    (report : value) :
  audit apigw methods = Ok report ->
  shaped_report report = true /\
  exists response api_items seq ds,
    get_rest_apis apigw = Ok response /\
    subscript response "items" = Ok api_items /\
    iterate api_items = Ok seq /\
    report = VList ds /\ length ds = length seq.
Proof.
  intros H. unfold audit in H.
  apply bind_ok in H. destruct H as [response [Hresp H]].
  apply bind_ok in H. destruct H as [api_items [Hitems H]].
  apply bind_ok in H. destruct H as [n [_ H]].
  apply bind_ok in H. destruct H as [seq [Hseq H]].
  apply bind_ok in H. destruct H as [ds [Hds H]].
  injection H as <-.
  destruct (audit_items_shape _ _ _ _ _ Hds) as [ds' [-> [Hlen Hs]]].
  simpl. split; [exact Hs|].
  exists response, api_items, seq, ds'. repeat split; assumption.
Qed.

(** X1.  Whatever the client answers, a report that audit returns is a
    list with one dict for each element of the API listing, each with the
    keys api_id, name, endpoint_type and, only when at least one resource
    was kept, resources; every kept resource has the keys path and methods,
    with at least one method, and every method the keys method,
    authorization_type and api_key_required. *)
Theorem audit_shape (apigw : client) (methods : option (list string))
    (report : value) :
  audit apigw methods = Ok report ->
  shaped_report report = true /\
  exists response api_items seq ds,
    get_rest_apis apigw = Ok response /\
    subscript response "items" = Ok api_items /\
    iterate api_items = Ok seq /\
    report = VList ds /\ length ds = length seq.
Proof. apply audit_result_shape. Qed.

Lemma audit_shape_witness :
  shaped_report
    (VList [VDict [("api_id", VStr "a1"); ("name", VStr "Shop");
                   ("endpoint_type", VList [VStr "REGIONAL"]);
                   ("resources",
                    VList [VDict [("path", VStr "/items");
                                  ("methods",
                                   VList [VDict [("method", VStr "POST");
                                                 ("authorization_type", VStr "AWS_IAM");
                                                 ("api_key_required", VBool true)]])]])]])
  = true.
Proof.
  exact (proj1 (audit_shape broken_client (Some ["POST"]) _ eq_refl)).
Defined.

(** ** The csv rendering of what audit returns *)

Lemma shaped_method_inv (v : value) :
  shaped_method v = true ->
  exists a b c, v = VDict [("method", a); ("authorization_type", b);
                           ("api_key_required", c)].
Proof.
  destruct v as [| | | | |d]; try discriminate.
  destruct d as [|[k1 x1] [|[k2 x2] [|[k3 x3] [|? ?]]]]; try discriminate.
  simpl. intros H.
  apply andb_prop in H. destruct H as [H H3].
  apply andb_prop in H. destruct H as [H1 H2].
  apply String.eqb_eq in H1, H2, H3. subst. eauto.
Qed.

Lemma shaped_resource_inv (v : value) :
  shaped_resource v = true ->
  exists p m ms, v = VDict [("path", p); ("methods", VList (m :: ms))] /\
                 forallb shaped_method (m :: ms) = true.
Proof.
  destruct v as [| | | | |d]; try discriminate.
  destruct d as [|[k1 x1] [|[k2 x2] [|? ?]]]; try discriminate;
    destruct x2 as [| | | |[|m ms]|]; try discriminate.
  unfold shaped_resource. intros H.
  apply andb_prop in H. destruct H as [H H3].
  apply andb_prop in H. destruct H as [H1 H2].
  apply String.eqb_eq in H1, H2. subst.
  exists x1, m, ms. split; [reflexivity | exact H3].
Qed.

Lemma shaped_audit_inv (v : value) :
  shaped_audit v = true ->
  exists i n t,
    (v = VDict [("api_id", i); ("name", n); ("endpoint_type", t)] /\
     has_resources v = false) \/
    (exists r rs,
        v = VDict [("api_id", i); ("name", n); ("endpoint_type", t);
                   ("resources", VList (r :: rs))] /\
        has_resources v = true /\
        forallb shaped_resource (r :: rs) = true).
Proof.
  destruct v as [| | | | |d]; try discriminate.
  destruct d as [|[k1 x1] [|[k2 x2] [|[k3 x3] [|[k4 x4] [|? ?]]]]];
    try discriminate.
  - unfold shaped_audit. intros H.
    apply andb_prop in H. destruct H as [H H3].
    apply andb_prop in H. destruct H as [H1 H2].
    apply String.eqb_eq in H1, H2, H3. subst.
    exists x1, x2, x3. left. split; reflexivity.
  - destruct x4 as [| | | |[|r rs]|]; try discriminate.
    unfold shaped_audit. intros H.
    apply andb_prop in H. destruct H as [H H5].
    apply andb_prop in H. destruct H as [H H4].
    apply andb_prop in H. destruct H as [H H3].
    apply andb_prop in H. destruct H as [H1 H2].
    apply String.eqb_eq in H1, H2, H3, H4. subst.
    exists x1, x2, x3. right. exists r, rs. repeat split. exact H5.
  - destruct x4 as [| | | |[|r rs]|]; discriminate.
Qed.

Lemma csv_line_shaped (api resource n i t p a b c : value) :
  subscript api "name" = Ok n ->
  subscript api "api_id" = Ok i ->
  subscript api "endpoint_type" = Ok t ->
  subscript resource "path" = Ok p ->
  exists line,
    csv_line api resource
      (VDict [("method", a); ("authorization_type", b);
              ("api_key_required", c)]) = Ok line.
Proof.
  intros Hn Hi Ht Hp. unfold csv_line. rewrite Hn, Hi, Ht, Hp. simpl.
  eexists. reflexivity.
Qed.

Lemma print_methods_shaped (api resource : value) (ms : list value) :
  (exists n, subscript api "name" = Ok n) ->
  (exists i, subscript api "api_id" = Ok i) ->
  (exists t, subscript api "endpoint_type" = Ok t) ->
  (exists p, subscript resource "path" = Ok p) ->
  forallb shaped_method ms = true ->
  forall out, exists lines,
    io_for (fun method => line <~ lift (csv_line api resource method) ;;
                          print line) ms out
    = ((out ++ lines)%list, Ok tt) /\ length lines = length ms.
Proof.
  intros [n Hn] [i Hi] [t Ht] [p Hp] Hms.
  induction ms as [|m ms IH]; intros out.
  - exists []. rewrite app_nil_r. split; reflexivity.
  - simpl in Hms. apply andb_prop in Hms. destruct Hms as [Hm Hms].
    destruct (shaped_method_inv m Hm) as [a [b [c ->]]].
    destruct (csv_line_shaped api resource n i t p a b c Hn Hi Ht Hp)
      as [line Hline].
    cbn [io_for]. unfold io_bind at 1. unfold io_bind at 1. unfold lift at 1.
    rewrite Hline. unfold print at 1.
    destruct (IH Hms (out ++ [line])%list) as [lines [-> Hlen]].
    exists (line :: lines). rewrite <- app_assoc. split; [reflexivity|].
    simpl. rewrite Hlen. reflexivity.
Qed.

Lemma print_resources_shaped (api : value) (rs : list value) :
  (exists n, subscript api "name" = Ok n) ->
  (exists i, subscript api "api_id" = Ok i) ->
  (exists t, subscript api "endpoint_type" = Ok t) ->
  forallb shaped_resource rs = true ->
  forall out, exists lines,
    io_for (print_resource api) rs out = ((out ++ lines)%list, Ok tt).
Proof.
  intros Hn Hi Ht Hrs. induction rs as [|r rs IH]; intros out.
  - exists []. rewrite app_nil_r. reflexivity.
  - simpl in Hrs. apply andb_prop in Hrs. destruct Hrs as [Hr Hrs].
    destruct (shaped_resource_inv r Hr) as [p [m [ms [-> Hms]]]].
    destruct (print_methods_shaped api
                (VDict [("path", p); ("methods", VList (m :: ms))]) (m :: ms)
                Hn Hi Ht (ex_intro _ p eq_refl) Hms out) as [lines [Hl _]].
    cbn [io_for]. unfold io_bind at 1.
    assert (Hres : print_resource api
                     (VDict [("path", p); ("methods", VList (m :: ms))]) out
                   = ((out ++ lines)%list, Ok tt)).
    { unfold print_resource, io_bind, lift. simpl. exact Hl. }
    rewrite Hres. destruct (IH Hrs (out ++ lines)%list) as [lines' ->].
    exists (lines ++ lines')%list. rewrite app_assoc. reflexivity.
Qed.

Lemma print_api_shaped (api : value) :
  shaped_audit api = true ->
  forall out, exists lines,
    print_api api out
    = ((out ++ lines)%list,
       if has_resources api then Ok tt else Raise (KeyError "resources")).
Proof.
  intros H out.
  destruct (shaped_audit_inv api H) as [i [n [t [[-> Hh] | [r [rs [-> [Hh Hrs]]]]]]]];
    rewrite Hh.
  - exists []. rewrite app_nil_r. reflexivity.
  - destruct (print_resources_shaped
                (VDict [("api_id", i); ("name", n); ("endpoint_type", t);
                        ("resources", VList (r :: rs))]) (r :: rs)
                (ex_intro _ n eq_refl) (ex_intro _ i eq_refl)
                (ex_intro _ t eq_refl) Hrs out) as [lines Hl].
    exists lines. unfold print_api, io_bind, lift. simpl. exact Hl.
Qed.

Lemma print_apis_shaped (ds : list value) :
  forallb shaped_audit ds = true ->
  forall out, exists lines,
    io_for print_api ds out
    = ((out ++ lines)%list,
       if forallb has_resources ds then Ok tt
       else Raise (KeyError "resources")).
Proof.
  induction ds as [|d ds IH]; intros H out.
  - exists []. rewrite app_nil_r. reflexivity.
  - simpl in H. apply andb_prop in H. destruct H as [Hd Hds].
    destruct (print_api_shaped d Hd out) as [lines Hl].
    cbn [io_for forallb]. unfold io_bind at 1. rewrite Hl.
    destruct (has_resources d); simpl.
    + destruct (IH Hds (out ++ lines)%list) as [lines' ->].
      exists (lines ++ lines')%list. rewrite app_assoc. reflexivity.
    + exists lines. reflexivity.
Qed.

(** X2.  The csv rendering of a report that audit returned, whatever the
    client answered, can fail in one way only: it prints without an
    exception when every ApiAudit of the report carries 'resources', and it
    raises KeyError('resources') otherwise.  No other key or type error can
    arise from what audit builds. *)
Theorem audit_then_csv (apigw : client) (methods : option (list string))
    (report : value) :
  audit apigw methods = Ok report ->
  exists ds lines,
    report = VList ds /\
    run (print_audits "csv" report)
    = (lines, if forallb has_resources ds then Ok tt
              else Raise (KeyError "resources")).
Proof.
  intros H. destruct (audit_result_shape _ _ _ H) as [Hs [_ [_ [_ [ds [_ [_ [_ [-> _]]]]]]]]].
  destruct (print_apis_shaped ds Hs []) as [lines Hl].
  exists ds, lines. split; [reflexivity|].
  unfold run, print_audits. simpl. unfold io_bind, lift. exact Hl.
Qed.

Lemma audit_then_csv_witness :
  exists ds lines,
    VList [VDict [("api_id", VStr "a1"); ("name", VStr "Shop");
                  ("endpoint_type", VList [VStr "REGIONAL"])]] = VList ds /\
    run (print_audits "csv"
           (VList [VDict [("api_id", VStr "a1"); ("name", VStr "Shop");
                          ("endpoint_type", VList [VStr "REGIONAL"])]]))
    = (lines, if forallb has_resources ds then Ok tt
              else Raise (KeyError "resources")).
Proof.
  exact (audit_then_csv (client_of scenario_a) (Some ["PUT"]) _ eq_refl).
Defined.

(** ** Failures of the collaborator *)

(** X3.  An exception of the client is not caught: when listing the APIs
    raises, audit raises the same exception; when the listing of the
    resources of an API raises after the APIs before it were audited
    without an exception, audit raises that exception and returns none of
    the ApiAudits collected so far. *)
Theorem collaborator_failure :
  (forall (apigw : client) (methods : option (list string)) (e : exn),
      get_rest_apis apigw = Raise e -> audit apigw methods = Raise e) /\
  (forall (apigw : client) (methods : option (list string))
          (response api api_id name configuration types : value)
          (before after collected : list value) (e : exn),
      get_rest_apis apigw = Ok response ->
      subscript response "items" = Ok (VList (before ++ api :: after)) ->
      for_each (audit_item apigw methods) before [] = Ok collected ->
      subscript api "id" = Ok api_id ->
      subscript api "name" = Ok name ->
      subscript api "endpointConfiguration" = Ok configuration ->
      subscript configuration "types" = Ok types ->
      get_resources apigw api_id = Raise e ->
      audit apigw methods = Raise e).
Proof.
  split.
  - intros apigw methods e H. unfold audit. rewrite H. reflexivity.
  - intros apigw methods response api api_id name configuration types
           before after collected e Hresp Hitems Hbefore Hid Hname Hconf
           Htypes Hres.
    unfold audit. rewrite Hresp. simpl. rewrite Hitems. simpl.
    rewrite for_each_app, Hbefore. simpl.
    unfold audit_item at 1. rewrite Hid. simpl. rewrite Hname. simpl.
    rewrite Hconf. simpl. rewrite Htypes. simpl. rewrite Hres. reflexivity.
Qed.

Lemma collaborator_failure_witness :
  audit throttled_client None = Raise (ClientError "TooManyRequestsException").
Proof.
  refine (proj2 collaborator_failure throttled_client None
            _ (raw_of_api {| id := "b2"; name := "Billing";
                             endpointTypes := ["EDGE"] |})
            (VStr "b2") (VStr "Billing")
            (VDict [("types", VList [VStr "EDGE"])]) (VList [VStr "EDGE"])
            [raw_of_api shop] [] _ _ eq_refl eq_refl eq_refl eq_refl eq_refl
            eq_refl eq_refl eq_refl).
Defined.

(** ** The filter as a set *)

Lemma for_each_ext {A B} (f g : B -> A -> result B) (xs : list A) :
  (forall acc x, In x xs -> f acc x = g acc x) ->
  forall acc, for_each f xs acc = for_each g xs acc.
Proof.
  induction xs as [|x xs IH]; intros H acc; simpl; [reflexivity|].
  rewrite (H acc x (or_introl eq_refl)).
  destruct (g acc x) as [acc'|e]; simpl; [|reflexivity].
  apply IH. intros a y Hy. apply H. right. exact Hy.
Qed.

Lemma selected_same_elements (ms ms' : list string) (verb : value) :
  (forall v, In v ms <-> In v ms') ->
  selected (Some ms) verb = selected (Some ms') verb.
Proof.
  intros H. simpl.
  destruct (existsb (fun m => is_str m verb) ms) eqn:E;
    destruct (existsb (fun m => is_str m verb) ms') eqn:E'; try reflexivity.
  - apply existsb_exists in E. destruct E as [m [Hin Hm]].
    rewrite <- E'. symmetry. apply existsb_exists. exists m.
    split; [apply H; exact Hin | exact Hm].
  - apply existsb_exists in E'. destruct E' as [m [Hin Hm]].
    rewrite <- E. apply existsb_exists. exists m.
    split; [apply H; exact Hin | exact Hm].
Qed.

(** Two filters that select the same verbs parse every resource alike. *)
Lemma parse_resource_same_selection (methods methods' : option (list string))
    (resource : value) :
  (forall verb, selected methods verb = selected methods' verb) ->
  parse_resource methods resource = parse_resource methods' resource.
Proof.
  intros H. unfold parse_resource.
  destruct (subscript resource "path") as [p|e]; simpl; [|reflexivity].
  destruct (contains "resourceMethods" resource) as [[|]|e]; simpl;
    try reflexivity.
  destruct (subscript resource "resourceMethods") as [mapping|e]; simpl;
    [|reflexivity].
  destruct (items mapping) as [es|e]; simpl; [|reflexivity].
  rewrite (for_each_ext (parse_method methods) (parse_method methods') es);
    [reflexivity|].
  intros acc x _. unfold parse_method.
  destruct (subscript (snd x) "httpMethod") as [verb|e]; simpl;
    [rewrite (H verb)|]; reflexivity.
Qed.

Lemma audit_same_selection (apigw : client)
    (methods methods' : option (list string)) :
  (forall verb, selected methods verb = selected methods' verb) ->
  audit apigw methods = audit apigw methods'.
Proof.
  intros H. unfold audit.
  destruct (get_rest_apis apigw) as [response|e]; simpl; [|reflexivity].
  destruct (subscript response "items") as [api_items|e]; simpl; [|reflexivity].
  destruct (len api_items) as [n|e]; simpl; [|reflexivity].
  destruct (iterate api_items) as [seq|e]; simpl; [|reflexivity].
  rewrite (for_each_ext (audit_item apigw methods) (audit_item apigw methods')
             seq); [reflexivity|].
  intros acc item _. unfold audit_item.
  destruct (subscript item "id") as [i|e]; simpl; [|reflexivity].
  destruct (subscript item "name") as [n'|e]; simpl; [|reflexivity].
  destruct (subscript item "endpointConfiguration") as [c|e]; simpl;
    [|reflexivity].
  destruct (subscript c "types") as [ts|e]; simpl; [|reflexivity].
  destruct (get_resources apigw i) as [resp|e]; simpl; [|reflexivity].
  destruct (subscript resp "items") as [its|e]; simpl; [|reflexivity].
  destruct (truthy its); [|reflexivity].
  destruct (iterate its) as [rs|e]; simpl; [|reflexivity].
  rewrite (for_each_ext (collect_resource methods) (collect_resource methods')
             rs); [reflexivity|].
  intros acc' r _. unfold collect_resource.
  rewrite (parse_resource_same_selection methods methods' r H). reflexivity.
Qed.

(** X4.  A filter acts as a set: two filters with the same elements, in
    whatever order and with whatever repetitions, give the same result of
    audit, report or exception, for every client. *)
Theorem filter_is_a_set (apigw : client) (ms ms' : list string) :
  (forall v, In v ms <-> In v ms') ->
  audit apigw (Some ms) = audit apigw (Some ms').
Proof.
  intros H. apply audit_same_selection. intros verb.
  apply selected_same_elements. exact H.
Qed.

Lemma filter_is_a_set_witness :
  audit broken_client (Some ["POST"; "PUT"; "POST"])
  = audit broken_client (Some ["PUT"; "POST"]).
Proof.
  apply filter_is_a_set. intros v. simpl. tauto.
Defined.

(** X5.  A filter that holds the verb of every method entry of a resource
    changes nothing: the resource parses as it does without a filter,
    whether to a Resource, to None or to an exception. *)
Theorem filter_covering_all_verbs (ms : list string) (resource : value) :
  (forall d es k e verb,
      resource = VDict d ->
      lookup "resourceMethods" d = Some (VDict es) ->
      In (k, VDict e) es ->
      lookup "httpMethod" e = Some verb ->
      selected (Some ms) verb = true) ->
  parse_resource (Some ms) resource = parse_resource None resource.
Proof.
  intros H. destruct resource as [| | | | |d]; try reflexivity.
  unfold parse_resource. simpl.
  destruct (lookup "path" d) as [p|]; simpl; [|reflexivity].
  destruct (lookup "resourceMethods" d) as [mapping|] eqn:Hm; simpl;
    [|reflexivity].
  destruct mapping as [| | | | |es]; try reflexivity. simpl.
  rewrite (for_each_ext (parse_method (Some ms)) (parse_method None) es);
    [reflexivity|].
  intros acc [k v] Hin. unfold parse_method.
  destruct v as [| | | | |e]; try reflexivity. simpl.
  destruct (lookup "httpMethod" e) as [verb|] eqn:Hv; simpl; [|reflexivity].
  pose proof (H d es k e verb eq_refl Hm Hin Hv) as Hs. simpl in Hs.
  rewrite Hs. reflexivity.
Qed.

Lemma filter_covering_all_verbs_witness :
  parse_resource (Some ["GET"; "POST"; "PUT"]) broken_get
  = parse_resource None broken_get.
Proof.
  apply filter_covering_all_verbs.
  intros d es k e verb Hd Hes Hin Hverb.
  injection Hd as <-. injection Hes as <-.
  destruct Hin as [Hin|[Hin|[]]]; injection Hin as <- <-;
    injection Hverb as <-; reflexivity.
Defined.

(** ** Filtering before and after *)

Lemma filter_secure (sel : string -> bool) (l : list MethodRaw) :
  filter (fun m => sel (ms_httpMethod m)) (map secure l)
  = map secure (filter (fun m => sel (httpMethod m)) l).
Proof.
  induction l as [|m l IH]; simpl; [reflexivity|].
  destruct (sel (httpMethod m)); simpl; rewrite IH; reflexivity.
Qed.

Lemma filter_all {A} (l : list A) : filter (fun _ => true) l = l.
Proof. induction l as [|x l IH]; simpl; [|rewrite IH]; reflexivity. Qed.

Lemma parse_then_restrict (methods : option (list string)) (r : ResourceRaw) :
  parse methods r
  = match parse None r with
    | Some x => restrict_resource methods x
    | None => None
    end.
Proof.
  unfold parse, parse_with, kept, restrict_resource. simpl.
  rewrite filter_all.
  destruct (map snd (entries r)) as [|m l] eqn:E; [reflexivity|].
  cbn [map r_methods r_path]. rewrite <- filter_secure. reflexivity.
Qed.

Lemma keep_some_twice {A B C} (f : A -> option B) (g : B -> option C)
    (l : list A) :
  keep_some g (keep_some f l)
  = keep_some (fun x => match f x with Some y => g y | None => None end) l.
Proof.
  induction l as [|x l IH]; simpl; [reflexivity|].
  destruct (f x) as [y|]; simpl; [|exact IH].
  destruct (g y); rewrite IH; reflexivity.
Qed.

Lemma keep_some_ext {A B} (f g : A -> option B) (l : list A) :
  (forall x, f x = g x) -> keep_some f l = keep_some g l.
Proof.
  intros H. induction l as [|x l IH]; simpl; [reflexivity|].
  rewrite H, IH. reflexivity.
Qed.

Lemma audit_of_restrict (methods : option (list string)) (s : Snapshot)
    (a : ApiSummary) :
  audit_of methods s a = restrict_audit methods (audit_of None s a).
Proof.
  unfold audit_of, restrict_audit, surviving. simpl. f_equal.
  rewrite (keep_some_ext (parse methods) _ _ (parse_then_restrict methods)).
  rewrite <- (keep_some_twice (parse None) (restrict_resource methods)).
  destruct (keep_some (parse None) (listResources s (id a))) as [|x xs];
    reflexivity.
Qed.

(** X6.  Auditing with a method filter gives the report that auditing
    without a filter gives, with the methods outside the filter removed,
    then the resources left without a method, then the resources field of
    the APIs left without a resource. *)
Theorem filter_after_audit (methods : option (list string)) (s : Snapshot) :
  audit (client_of s) methods
  = Ok (value_of_report (map (restrict_audit methods) (report_of None s))) /\
  audit (client_of s) None = Ok (value_of_report (report_of None s)).
Proof.
  split; [|apply audit_typed].
  rewrite audit_typed. unfold report_of. rewrite map_map.
  do 2 f_equal. apply map_ext. intros a. apply audit_of_restrict.
Qed.

(** ** main *)















(** ** json mode on what audit returns *)

Lemma proper_lookup (d : list (string * value)) (k : string) (v : value) :
  forallb (fun kv => match kv with (_, x) => proper x end) d = true ->
  lookup k d = Some v -> proper v = true.
Proof.
  induction d as [|[k' x] d IH]; simpl; [discriminate|].
  intros H Hl. apply andb_prop in H. destruct H as [Hx Hd].
  destruct (String.eqb k k'); [injection Hl as <-; exact Hx | exact (IH Hd Hl)].
Qed.

Lemma proper_subscript (v x : value) (k : string) :
  proper v = true -> subscript v k = Ok x -> proper x = true.
Proof.
  destruct v as [| | | | |d]; try discriminate. simpl. intros H Hs.
  apply andb_prop in H. destruct H as [_ H].
  destruct (lookup k d) as [y|] eqn:E; [|discriminate].
  injection Hs as <-. exact (proper_lookup d k y H E).
Qed.

Lemma proper_iterate (v : value) (seq : list value) :
  proper v = true -> iterate v = Ok seq -> forallb proper seq = true.
Proof.
  destruct v as [| | |s|l|d]; try discriminate; simpl; intros H Hs;
    injection Hs as <-.
  - unfold chars. induction (list_ascii_of_string s) as [|c l IH]; simpl;
      [reflexivity | exact IH].
  - exact H.
  - clear H. induction d as [|kv d IH]; simpl; [reflexivity | exact IH].
Qed.

Lemma proper_items (v : value) (es : list (string * value)) :
  proper v = true -> items v = Ok es ->
  forallb (fun kv => proper (snd kv)) es = true.
Proof.
  destruct v as [| | | | |d]; try discriminate. simpl. intros H Hs.
  injection Hs as <-. apply andb_prop in H. destruct H as [_ H].
  rewrite forallb_forall in *. intros [k x] Hin. exact (H (k, x) Hin).
Qed.

Lemma parse_method_proper (methods : option (list string))
    (acc acc' : list value) (kv : string * value) :
  proper (snd kv) = true ->
  forallb proper acc = true ->
  parse_method methods acc kv = Ok acc' ->
  forallb proper acc' = true.
Proof.
  intros Hkv Hacc H. unfold parse_method in H.
  apply bind_ok in H. destruct H as [verb [Hverb H]].
  destruct (selected methods verb); [|injection H as <-; exact Hacc].
  apply bind_ok in H. destruct H as [a [Ha H]].
  apply bind_ok in H. destruct H as [k [Hk H]].
  injection H as <-. rewrite forallb_snoc, Hacc. simpl.
  rewrite (proper_subscript _ _ _ Hkv Hverb), (proper_subscript _ _ _ Hkv Ha),
    (proper_subscript _ _ _ Hkv Hk). reflexivity.
Qed.

Lemma parse_resource_proper (methods : option (list string))
    (resource out : value) :
  proper resource = true ->
  parse_resource methods resource = Ok out -> proper out = true.
Proof.
  intros Hr H. unfold parse_resource in H.
  apply bind_ok in H. destruct H as [p [Hp H]].
  apply bind_ok in H. destruct H as [has [_ H]].
  apply bind_ok in H. destruct H as [parsed [Hparsed H]].
  assert (Hs : forallb proper parsed = true).
  { destruct has; [|injection Hparsed as <-; reflexivity].
    apply bind_ok in Hparsed. destruct Hparsed as [mapping [Hm Hparsed]].
    apply bind_ok in Hparsed. destruct Hparsed as [es [Hes Hparsed]].
    pose proof (proper_items _ _ (proper_subscript _ _ _ Hr Hm) Hes) as Hall.
    rewrite forallb_forall in Hall.
    apply (for_each_invariant (fun acc => forallb proper acc = true)
             (parse_method methods) es) with (acc := []);
      [|reflexivity | exact Hparsed].
    intros acc x acc' Hin. apply parse_method_proper. exact (Hall x Hin). }
  destruct parsed as [|m ms]; simpl in H; injection H as <-; [reflexivity|].
  simpl in *. rewrite (proper_subscript _ _ _ Hr Hp), Hs. reflexivity.
Qed.

Lemma audit_item_proper (apigw : client) (methods : option (list string))
    (acc acc' : list value) (item : value) :
  proper_client apigw ->
  proper item = true ->
  forallb proper acc = true ->
  audit_item apigw methods acc item = Ok acc' ->
  forallb proper acc' = true.
Proof.
  intros [_ Hc] Hitem Hacc H. unfold audit_item in H.
  apply bind_ok in H. destruct H as [i [Hi H]].
  apply bind_ok in H. destruct H as [n [Hn H]].
  apply bind_ok in H. destruct H as [conf [Hconf H]].
  apply bind_ok in H. destruct H as [ts [Hts H]].
  apply bind_ok in H. destruct H as [resp [Hresp H]].
  apply bind_ok in H. destruct H as [its [Hits H]].
  apply bind_ok in H. destruct H as [d [Hd H]].
  injection H as <-. rewrite forallb_snoc, Hacc. simpl.
  pose proof (proper_subscript _ _ _ Hitem Hi) as Pi.
  pose proof (proper_subscript _ _ _ Hitem Hn) as Pn.
  pose proof (proper_subscript _ _ _
                (proper_subscript _ _ _ Hitem Hconf) Hts) as Pt.
  pose proof (proper_subscript _ _ _ (Hc _ _ Hresp) Hits) as Pits.
  destruct (truthy its).
  - apply bind_ok in Hd. destruct Hd as [seq [Hseq Hd]].
    apply bind_ok in Hd. destruct Hd as [rs [Hrs Hd]].
    pose proof (proper_iterate _ _ Pits Hseq) as Hall.
    rewrite forallb_forall in Hall.
    assert (Hs : forallb proper rs = true).
    { apply (for_each_invariant (fun acc => forallb proper acc = true)
               (collect_resource methods) seq) with (acc := []);
        [|reflexivity | exact Hrs].
      intros a x a' Hin Ha Hx. unfold collect_resource in Hx.
      apply bind_ok in Hx. destruct Hx as [out [Hout Hx]].
      pose proof (parse_resource_proper _ _ _ (Hall x Hin) Hout) as Po.
      destruct out; injection Hx as <-; try exact Ha;
        rewrite forallb_snoc, Ha; exact Po. }
    destruct rs as [|r rs]; injection Hd as <-; simpl in *.
    + rewrite Pi, Pn, Pt. reflexivity.
    + rewrite Pi, Pn, Pt, Hs. reflexivity.
  - injection Hd as <-. simpl. rewrite Pi, Pn, Pt. reflexivity.
Qed.

Lemma audit_proper (apigw : client) (methods : option (list string))
    (report : value) :
  proper_client apigw ->
  audit apigw methods = Ok report -> proper report = true.
Proof.
  intros Hc H. unfold audit in H.
  apply bind_ok in H. destruct H as [response [Hresp H]].
  apply bind_ok in H. destruct H as [api_items [Hitems H]].
  apply bind_ok in H. destruct H as [n [_ H]].
  apply bind_ok in H. destruct H as [seq [Hseq H]].
  apply bind_ok in H. destruct H as [ds [Hds H]].
  injection H as <-. simpl.
  pose proof (proper_iterate _ _
                (proper_subscript _ _ _ (proj1 Hc _ Hresp) Hitems) Hseq)
    as Hall.
  rewrite forallb_forall in Hall.
  apply (for_each_invariant (fun acc => forallb proper acc = true)
           (audit_item apigw methods) seq) with (acc := []);
    [|reflexivity | exact Hds].
  intros acc x acc' Hin. apply (audit_item_proper apigw methods acc acc' x Hc).
  exact (Hall x Hin).
Qed.

(** X10.  For a client whose responses are Python data (dicts with distinct
    keys), what json mode prints for a report that audit returned is one
    line that json.loads reads back as exactly that report, whatever
    strings, integers, booleans, None, lists or dicts the collaborator put
    under the names, types and security attributes. *)
Theorem audit_json_round_trip (apigw : client)
    (methods : option (list string)) (report : value) :
  proper_client apigw ->
  audit apigw methods = Ok report ->
  run (print_audits "json" report) = ([json_dumps report], Ok tt) /\
  json_loads (json_dumps report) = Some report.
Proof.
  intros Hc H. split; [reflexivity|].
  apply json_loads_dumps. exact (audit_proper apigw methods report Hc H).
Qed.

Lemma loose_client_proper : proper_client loose_client.
Proof.
  split.
  - intros response H. injection H as <-. reflexivity.
  - intros api_id response H. injection H as <-. reflexivity.
Qed.

Lemma audit_json_round_trip_witness :
  exists report,
    audit loose_client None = Ok report /\
    json_loads (json_dumps report) = Some report.
Proof.
  eexists. split; [reflexivity|].
  exact (proj2 (audit_json_round_trip loose_client None _
                  loose_client_proper eq_refl)).
Defined.

(** ** json mode prints printable ASCII *)

Lemma printable_cons (c : ascii) (s : string) :
  printable_ascii (String c s)
  = ((32 <=? nat_of_ascii c)%nat && (nat_of_ascii c <=? 126)%nat)
    && printable_ascii s.
Proof. reflexivity. Qed.

Lemma printable_append (a b : string) :
  printable_ascii (a ++ b) = printable_ascii a && printable_ascii b.
Proof.
  induction a as [|c a IH]; [reflexivity|].
  cbn [append]. rewrite !printable_cons, IH, andb_assoc. reflexivity.
Qed.

Lemma printable_join (sep : string) (parts : list string) :
  printable_ascii sep = true ->
  forallb printable_ascii parts = true ->
  printable_ascii (join sep parts) = true.
Proof.
  intros Hsep. induction parts as [|x [|y l] IH]; intros H.
  - reflexivity.
  - simpl in *. rewrite andb_true_r in H. exact H.
  - rewrite join_cons, !printable_append, Hsep.
    cbn [forallb] in H. apply andb_prop in H. destruct H as [Hx H].
    rewrite Hx, (IH H). reflexivity.
Qed.

Lemma printable_json_char (c : ascii) : printable_ascii (json_char c) = true.
Proof. destruct c as [[] [] [] [] [] [] [] []]; reflexivity. Qed.

Lemma printable_json_str (s : string) : printable_ascii (json_str s) = true.
Proof.
  unfold json_str. rewrite !printable_append.
  replace (printable_ascii
             (String.concat EmptyString
                (map json_char (list_ascii_of_string s)))) with true;
    [reflexivity|].
  symmetry. induction s as [|c s IH]; [reflexivity|].
  cbn [list_ascii_of_string map]. rewrite concat_chars, printable_append.
  rewrite printable_json_char, IH. reflexivity.
Qed.

Lemma printable_uint (d : Decimal.uint) :
  printable_ascii (NilEmpty.string_of_uint d) = true.
Proof. induction d; simpl; try reflexivity; exact IHd. Qed.

Lemma printable_str_int (z : Z) : printable_ascii (str_int z) = true.
Proof.
  unfold str_int.
  destruct z as [|p|p]; [reflexivity| |];
    destruct (to_uint_head p) as [c [r [H0 [H1 _]]]];
    pose proof (printable_uint (Pos.to_uint p)) as H;
    cbn [Z.to_int NilZero.string_of_int]; rewrite H0, <- H1.
  - exact H.
  - change (printable_ascii (String "-" ?s)) with (printable_ascii s). exact H.
Qed.

Lemma printable_json_dumps (v : value) : printable_ascii (json_dumps v) = true.
Proof.
  induction v as [|b|z|s|l IH|d IH] using value_nested_ind.
  - reflexivity.
  - destruct b; reflexivity.
  - apply printable_str_int.
  - apply printable_json_str.
  - destruct l as [|x l]; [reflexivity|].
    change (json_dumps (VList (x :: l)))
      with ("[" ++ join ", " (map json_dumps (x :: l)) ++ "]").
    rewrite !printable_append, printable_join; [reflexivity | reflexivity|].
    rewrite forallb_forall. intros t Hin. apply in_map_iff in Hin.
    destruct Hin as [y [<- Hy]]. rewrite Forall_forall in IH. exact (IH y Hy).
  - destruct d as [|kv d]; [reflexivity|].
    set (member := fun kv : string * value =>
                     match kv with
                     | (k, y) => json_str k ++ ": " ++ json_dumps y
                     end).
    change (json_dumps (VDict (kv :: d)))
      with ("{" ++ join ", " (map member (kv :: d)) ++ "}").
    rewrite !printable_append, printable_join; [reflexivity | reflexivity|].
    rewrite forallb_forall. intros t Hin. apply in_map_iff in Hin.
    destruct Hin as [[k y] [<- Hy]]. rewrite Forall_forall in IH.
    pose proof (IH (k, y) Hy) as Hky. simpl in Hky.
    unfold member. rewrite !printable_append, printable_json_str, Hky.
    reflexivity.
Qed.

(** X11.  In json mode print_audits prints one string, never raises, and
    the string holds only characters from the space to the tilde: a
    control character or a character above the tilde in a name, a path or
    any other value is escaped, so the report is always one line of
    ASCII. *)
Theorem json_mode_prints_one_ascii_line (v : value) :
  exists line,
    run (print_audits "json" v) = ([line], Ok tt) /\
    printable_ascii line = true.
Proof.
  exists (json_dumps v). split; [reflexivity | apply printable_json_dumps].
Qed.

(** ** Reading back what json-pretty prints *)

Lemma terminated_no_digit (rest : string) :
  terminated rest = true ->
  match rest with
  | String c _ => is_digit c = false
  | EmptyString => True
  end.
Proof.
  destruct rest as [|c r]; simpl; [trivial|]. unfold is_ws.
  destruct (Ascii.eqb_spec c " "); [subst; reflexivity|].
  destruct (Ascii.eqb_spec c (ascii_of_nat 9)); [subst; reflexivity|].
  destruct (Ascii.eqb_spec c (ascii_of_nat 10)); [subst; reflexivity|].
  destruct (Ascii.eqb_spec c (ascii_of_nat 13)); [subst; reflexivity|].
  destruct (Ascii.eqb_spec c ","); [subst; reflexivity|].
  destruct (Ascii.eqb_spec c "]"); [subst; reflexivity|].
  destruct (Ascii.eqb_spec c "}"); [subst; reflexivity | discriminate].
Qed.

Lemma terminated_no_float (rest : string) :
  terminated rest = true -> float_tail rest = false.
Proof.
  destruct rest as [|c [|d r]]; simpl; try reflexivity. unfold is_ws.
  destruct (Ascii.eqb_spec c " "); [subst; reflexivity|].
  destruct (Ascii.eqb_spec c (ascii_of_nat 9)); [subst; reflexivity|].
  destruct (Ascii.eqb_spec c (ascii_of_nat 10)); [subst; reflexivity|].
  destruct (Ascii.eqb_spec c (ascii_of_nat 13)); [subst; reflexivity|].
  destruct (Ascii.eqb_spec c ","); [subst; reflexivity|].
  destruct (Ascii.eqb_spec c "]"); [subst; reflexivity|].
  destruct (Ascii.eqb_spec c "}"); [subst; reflexivity | discriminate].
Qed.

(** An integer is read back when what follows it cannot continue a
    number. *)
Lemma scan_number_terminated (z : Z) (rest : string) :
  terminated rest = true ->
  scan_number (str_int z ++ rest) = Some (VInt z, rest).
Proof.
  intros Hd. pose proof (terminated_no_float rest Hd) as Hf.
  pose proof (terminated_no_digit rest Hd) as Hg.
  destruct z as [|p|p]; unfold str_int.
  - unfold scan_number. simpl. rewrite Hf. reflexivity.
  - destruct (to_uint_head p) as [c [r [H0 [H1 [Hc Hnz]]]]].
    pose proof (take_digits_uint (Pos.to_uint p) rest Hg) as Ht.
    pose proof (NilZero.isi (Z.to_int (Z.pos p))) as Hi.
    pose proof (DecimalZ.of_to (Z.pos p)) as Hz.
    cbn [Z.to_int NilZero.string_of_int] in *.
    rewrite H0 in *. rewrite H1 in Ht. simpl in Ht.
    rewrite Hc in Ht. unfold scan_number. simpl.
    rewrite (digit_not_minus c Hc). simpl. rewrite Hnz, Hc.
    destruct (take_digits (r ++ rest)) as [ds rest'].
    injection Ht as -> ->. rewrite Hf.
    rewrite Hi; [rewrite Hz; reflexivity | | discriminate].
    intros H. injection H as H.
    exact (DecimalPos.Unsigned.to_uint_nonnil p H).
  - destruct (to_uint_head p) as [c [r [H0 [H1 [Hc Hnz]]]]].
    pose proof (take_digits_uint (Pos.to_uint p) rest Hg) as Ht.
    pose proof (NilZero.isi (Z.to_int (Z.neg p))) as Hi.
    pose proof (DecimalZ.of_to (Z.neg p)) as Hz.
    cbn [Z.to_int NilZero.string_of_int] in *.
    rewrite H0 in *. rewrite H1 in Ht. simpl in Ht.
    rewrite Hc in Ht. unfold scan_number. simpl.
    rewrite Hnz, Hc.
    destruct (take_digits (r ++ rest)) as [ds rest'].
    injection Ht as -> ->. rewrite Hf.
    assert (Hnil : Decimal.Neg (Pos.to_uint p) <> Decimal.Neg Decimal.Nil).
    { intros H. injection H as H.
      exact (DecimalPos.Unsigned.to_uint_nonnil p H). }
    specialize (Hi ltac:(discriminate) Hnil).
    change (option_map Decimal.Neg (NilZero.uint_of_string (String c r)))
      with (NilZero.int_of_string (String "-" (String c r))).
    rewrite Hi, Hz. reflexivity.
Qed.

(** *** The order of the keys *)

Lemma insert_item_map {A B} (f : A -> B) (k : string) (x : A)
    (l : list (string * A)) :
  insert_item (k, f x)
    (map (fun kv => match kv with (k', y) => (k', f y) end) l)
  = map (fun kv => match kv with (k', y) => (k', f y) end)
      (insert_item (k, x) l).
Proof.
  induction l as [|[k' x'] l IH]; simpl; [reflexivity|].
  destruct (String.leb k k'); simpl; [reflexivity|].
  rewrite IH. reflexivity.
Qed.

Lemma sort_items_map {A B} (f : A -> B) (l : list (string * A)) :
  sort_items (map (fun kv => match kv with (k, y) => (k, f y) end) l)
  = map (fun kv => match kv with (k, y) => (k, f y) end) (sort_items l).
Proof.
  unfold sort_items. induction l as [|[k x] l IH]; simpl; [reflexivity|].
  rewrite IH. apply insert_item_map.
Qed.

Lemma insert_item_keys {A} (k : string) (x : A) (l : list (string * A))
    (k' : string) :
  existsb (String.eqb k') (map fst (insert_item (k, x) l))
  = String.eqb k' k || existsb (String.eqb k') (map fst l).
Proof.
  induction l as [|[k1 x1] l IH]; simpl; [reflexivity|].
  destruct (String.leb k k1); simpl; [reflexivity|].
  rewrite IH.
  destruct (String.eqb k' k1), (String.eqb k' k); reflexivity.
Qed.

Lemma insert_item_distinct {A} (k : string) (x : A) (l : list (string * A)) :
  distinct (map fst (insert_item (k, x) l))
  = negb (existsb (String.eqb k) (map fst l)) && distinct (map fst l).
Proof.
  induction l as [|[k1 x1] l IH]; simpl; [reflexivity|].
  destruct (String.leb k k1); simpl; [reflexivity|].
  rewrite IH, insert_item_keys, (String.eqb_sym k1 k).
  destruct (String.eqb k k1), (existsb (String.eqb k) (map fst l)),
    (existsb (String.eqb k1) (map fst l)), (distinct (map fst l));
    reflexivity.
Qed.

Lemma sort_items_keys {A} (l : list (string * A)) (k : string) :
  existsb (String.eqb k) (map fst (sort_items l))
  = existsb (String.eqb k) (map fst l).
Proof.
  unfold sort_items. induction l as [|[k1 x1] l IH]; simpl; [reflexivity|].
  rewrite insert_item_keys, IH. reflexivity.
Qed.

Lemma sort_items_distinct {A} (l : list (string * A)) :
  distinct (map fst (sort_items l)) = distinct (map fst l).
Proof.
  induction l as [|[k x] l IH]; simpl; [reflexivity|].
  change (sort_items ((k, x) :: l)) with (insert_item (k, x) (sort_items l)).
  rewrite insert_item_distinct, sort_items_keys, IH. reflexivity.
Qed.

Lemma insert_item_lookup (k : string) (x : value)
    (l : list (string * value)) (k' : string) :
  existsb (String.eqb k) (map fst l) = false ->
  lookup k' (insert_item (k, x) l) = lookup k' ((k, x) :: l).
Proof.
  induction l as [|[k1 x1] l IH]; simpl; [reflexivity|].
  intros H. apply orb_false_elim in H. destruct H as [Hk Hl].
  destruct (String.leb k k1); simpl; [reflexivity|].
  rewrite (IH Hl). simpl.
  destruct (String.eqb_spec k' k1), (String.eqb_spec k' k); try reflexivity.
  subst. rewrite String.eqb_refl in Hk. discriminate.
Qed.

(** Sorting the items of a dict does not change what a key is bound to. *)
Lemma sort_items_lookup (l : list (string * value)) (k : string) :
  distinct (map fst l) = true ->
  lookup k (sort_items l) = lookup k l.
Proof.
  induction l as [|[k1 x1] l IH]; simpl; [reflexivity|].
  intros H. apply andb_prop in H. destruct H as [Hk Hl].
  change (sort_items ((k1, x1) :: l)) with (insert_item (k1, x1) (sort_items l)).
  rewrite insert_item_lookup.
  - simpl. rewrite (IH Hl). reflexivity.
  - rewrite sort_items_keys. apply negb_true_iff. exact Hk.
Qed.

Lemma insert_item_In {A} (kv x : string * A) (l : list (string * A)) :
  In x (insert_item kv l) <-> x = kv \/ In x l.
Proof.
  induction l as [|y l IH]; simpl; [intuition congruence|].
  destruct (String.leb (fst kv) (fst y)); simpl; [intuition congruence|].
  rewrite IH. intuition congruence.
Qed.

Lemma sort_items_In {A} (x : string * A) (l : list (string * A)) :
  In x (sort_items l) <-> In x l.
Proof.
  induction l as [|y l IH]; simpl; [reflexivity|].
  change (sort_items (y :: l)) with (insert_item y (sort_items l)).
  rewrite insert_item_In, IH. intuition congruence.
Qed.

Lemma sort_items_length {A} (l : list (string * A)) :
  length (sort_items l) = length l.
Proof.
  induction l as [|y l IH]; simpl; [reflexivity|].
  change (sort_items (y :: l)) with (insert_item y (sort_items l)).
  rewrite <- IH. generalize (sort_items l). intros s.
  induction s as [|z s IHs]; simpl; [reflexivity|].
  destruct (String.leb (fst y) (fst z)); simpl; [reflexivity|].
  rewrite IHs. reflexivity.
Qed.

(** *** The indented text *)

Lemma skip_ws_spaces (n : nat) (t : string) :
  skip_ws (spaces n ++ t) = skip_ws t.
Proof. induction n as [|n IH]; simpl; [reflexivity | exact IH]. Qed.

Lemma skip_ws_newline_indent (level : nat) (t : string) :
  skip_ws (newline_indent level ++ t) = skip_ws t.
Proof.
  unfold newline_indent. rewrite append_assoc.
  change (skip_ws (newline ++ ?u)) with (skip_ws u).
  apply skip_ws_spaces.
Qed.

Lemma terminated_newline_indent (level : nat) (t : string) :
  terminated (newline_indent level ++ t) = true.
Proof. reflexivity. Qed.

Lemma pretty_list (level : nat) (x : value) (l : list value) :
  json_dumps_pretty level (VList (x :: l))
  = "[" ++ newline_indent (S level)
        ++ join ("," ++ newline_indent (S level))
             (map (json_dumps_pretty (S level)) (x :: l))
        ++ newline_indent level ++ "]".
Proof. reflexivity. Qed.

Lemma pretty_dict (level : nat) (kv : string * value)
    (d : list (string * value)) :
  json_dumps_pretty level (VDict (kv :: d))
  = "{" ++ newline_indent (S level)
        ++ join ("," ++ newline_indent (S level))
             (map (fun kv => match kv with
                             | (k, x) =>
                                 json_str k ++ ": "
                                   ++ json_dumps_pretty (S level) x
                             end) (sort_items (kv :: d)))
        ++ newline_indent level ++ "}".
Proof.
  change (json_dumps_pretty level (VDict (kv :: d)))
    with ("{" ++ newline_indent (S level)
              ++ join ("," ++ newline_indent (S level))
                   (map (fun kv => match kv with
                                   | (k, t) => json_str k ++ ": " ++ t
                                   end)
                      (sort_items
                         (map (fun kv => match kv with
                                         | (k, x) =>
                                             (k, json_dumps_pretty (S level) x)
                                         end) (kv :: d))))
              ++ newline_indent level ++ "}").
  rewrite sort_items_map, map_map. do 3 f_equal. unfold join. f_equal.
  apply map_ext. intros [k x]. reflexivity.
Qed.

Lemma pretty_head (level : nat) (v : value) :
  exists c r, json_dumps_pretty level v = String c r /\
              is_ws c = false /\ Ascii.eqb c "]" = false.
Proof.
  destruct v as [|[]|z|s|[|x l]|[|kv d]];
    try (eexists; eexists; split; [reflexivity | split; reflexivity]).
  destruct (json_dumps_head (VInt z)) as [c [r [H Hc]]].
  exists c, r. split; [exact H | exact Hc].
Qed.

Lemma pretty_length (level : nat) (v : value) :
  1 <= String.length (json_dumps_pretty level v).
Proof.
  destruct (pretty_head level v) as [c [r [-> _]]]. simpl. lia.
Qed.

Lemma skip_ws_pretty (level : nat) (v : value) (t : string) :
  skip_ws (json_dumps_pretty level v ++ t) = json_dumps_pretty level v ++ t.
Proof.
  destruct (pretty_head level v) as [c [r [-> [Hws _]]]]. simpl.
  rewrite Hws. reflexivity.
Qed.

Lemma comma_newline (level : nat) (t : string) :
  ("," ++ newline_indent level) ++ t = String "," (newline_indent level ++ t).
Proof. reflexivity. Qed.

(** *** The loops on the indented text *)

Lemma scan_elements_pretty (scan : string -> option (value * string))
    (level outer : nat) (l : list value) :
  l <> [] ->
  Forall (fun x => forall rest, terminated rest = true ->
                                scan (json_dumps_pretty level x ++ rest)
                                = Some (sort_keys x, rest)) l ->
  forall k rest,
    length l <= k ->
    scan_elements scan k
      (join ("," ++ newline_indent level) (map (json_dumps_pretty level) l)
         ++ newline_indent outer ++ String "]" rest)
    = Some (map sort_keys l, rest).
Proof.
  intros Hne H. induction H as [|x l Hx Hl IH]; [congruence|].
  intros k rest Hk. destruct k as [|k]; [simpl in Hk; lia|].
  destruct l as [|y l].
  - cbn [map join String.concat].
    eapply scan_elements_close;
      [apply Hx; apply terminated_newline_indent|].
    rewrite skip_ws_newline_indent. reflexivity.
  - cbn [map]. rewrite join_cons, !append_assoc.
    rewrite <- (append_assoc ","), comma_newline.
    erewrite scan_elements_comma; [|apply Hx; reflexivity | reflexivity].
    rewrite skip_ws_newline_indent.
    destruct (join_head ("," ++ newline_indent level)
                (json_dumps_pretty level y)
                (map (json_dumps_pretty level) l)) as [t Ht].
    rewrite Ht, append_assoc, skip_ws_pretty, <- append_assoc, <- Ht.
    cbn [map] in IH. rewrite IH; [reflexivity | discriminate | simpl in *; lia].
Qed.

Lemma skip_ws_pretty_members (level : nat) (kv : string * value)
    (d : list (string * value)) (u : string) :
  skip_ws (join ("," ++ newline_indent level)
             (map (fun kv => match kv with
                             | (k, x) =>
                                 json_str k ++ ": " ++ json_dumps_pretty level x
                             end) (kv :: d)) ++ u)
  = join ("," ++ newline_indent level)
      (map (fun kv => match kv with
                      | (k, x) => json_str k ++ ": " ++ json_dumps_pretty level x
                      end) (kv :: d)) ++ u.
Proof.
  destruct kv as [key y]. cbn [map].
  match goal with
  | |- context [join ?sep (?m :: ?ms)] =>
      destruct (join_head sep m ms) as [t ->]
  end.
  rewrite !append_assoc. apply skip_ws_json_str.
Qed.

Lemma scan_members_pretty (scan : string -> option (value * string))
    (level outer : nat) (d : list (string * value)) :
  d <> [] ->
  Forall (fun kv => forall rest, terminated rest = true ->
                                 scan (json_dumps_pretty level (snd kv) ++ rest)
                                 = Some (sort_keys (snd kv), rest)) d ->
  forall k rest,
    length d <= k ->
    scan_members scan k
      (join ("," ++ newline_indent level)
         (map (fun kv => match kv with
                         | (key, x) =>
                             json_str key ++ ": " ++ json_dumps_pretty level x
                         end) d)
         ++ newline_indent outer ++ String "}" rest)
    = Some (map (fun kv => match kv with
                           | (key, x) => (key, sort_keys x)
                           end) d, rest).
Proof.
  intros Hne H. induction H as [|[key x] d Hx Hd IH]; [congruence|].
  intros k rest Hk. destruct k as [|k]; [simpl in Hk; lia|].
  simpl in Hx. destruct d as [|[key' y] d].
  - cbn [map join String.concat]. rewrite !append_assoc, colon_space.
    match goal with
    | |- scan_members _ _ (json_str key ++ ?t) = _ =>
        destruct (scan_json_str key t) as [body [-> Hbody]]
    end.
    eapply scan_members_close;
      [ exact Hbody | reflexivity
      | rewrite skip_ws_space, skip_ws_pretty; apply Hx;
        apply terminated_newline_indent
      | rewrite skip_ws_newline_indent; reflexivity ].
  - cbn [map]. rewrite join_cons, !append_assoc, colon_space.
    rewrite <- (append_assoc ","), comma_newline.
    match goal with
    | |- scan_members _ _ (json_str key ++ ?t) = _ =>
        destruct (scan_json_str key t) as [body [-> Hbody]]
    end.
    erewrite scan_members_comma;
      [ | exact Hbody | reflexivity
        | rewrite skip_ws_space, skip_ws_pretty; apply Hx; reflexivity
        | reflexivity ].
    rewrite skip_ws_newline_indent.
    change (skip_ws ?t) with
      (skip_ws (join ("," ++ newline_indent level)
                  (map (fun kv => match kv with
                                  | (key, x) =>
                                      json_str key ++ ": "
                                        ++ json_dumps_pretty level x
                                  end) ((key', y) :: d))
                  ++ newline_indent outer ++ String "}" rest)).
    rewrite skip_ws_pretty_members.
    rewrite IH; [reflexivity | discriminate | simpl in *; lia].
Qed.

(** *** One value *)

Lemma scan_once_list_ws (depth : nat) (r r' : string) (c : ascii) :
  skip_ws r = String c r' -> Ascii.eqb c "]" = false ->
  scan_once (S depth) (String "[" r)
  = match scan_elements (scan_once depth) (String.length (String c r'))
            (String c r') with
    | Some (vs, rest) => Some (VList vs, rest)
    | None => None
    end.
Proof. intros Hs Hc. cbn [scan_once]. simpl. rewrite Hs, Hc. reflexivity. Qed.

Lemma scan_once_dict_ws (depth : nat) (r r' : string) :
  skip_ws r = String dquote r' ->
  scan_once (S depth) (String "{" r)
  = match scan_members (scan_once depth) (String.length (String dquote r'))
            (String dquote r') with
    | Some (ps, rest) => Some (VDict (dict_of_pairs ps), rest)
    | None => None
    end.
Proof. intros Hs. cbn [scan_once]. simpl. rewrite Hs. reflexivity. Qed.

Lemma map_keys {A B} (f : A -> B) (d : list (string * A)) :
  map fst (map (fun kv => match kv with (k, x) => (k, f x) end) d)
  = map fst d.
Proof.
  induction d as [|[k x] d IH]; simpl; [reflexivity | rewrite IH; reflexivity].
Qed.

(** What json.dumps writes with indent=4 and sort_keys=True is read back
    as the value with its keys sorted. *)
Lemma scan_once_pretty (v : value) :
  proper v = true ->
  forall level depth rest,
    String.length (json_dumps_pretty level v) <= depth ->
    terminated rest = true ->
    scan_once depth (json_dumps_pretty level v ++ rest)
    = Some (sort_keys v, rest).
Proof.
  induction v as [|b|z|s|l IH|d IH] using value_nested_ind;
    intros Hp level depth rest Hlen Hrest.
  - destruct depth as [|depth]; [simpl in Hlen; lia | reflexivity].
  - destruct depth as [|depth]; [destruct b; simpl in Hlen; lia|].
    destruct b; reflexivity.
  - destruct depth as [|depth];
      [pose proof (pretty_length level (VInt z)); lia|].
    cbn [json_dumps_pretty sort_keys].
    destruct (str_int_head z) as [c [r [Hz Hc]]].
    pose proof (scan_number_terminated z rest Hrest) as Hn.
    rewrite Hz in *. cbn [append] in *.
    rewrite (scan_once_number depth c _ Hc). exact Hn.
  - destruct depth as [|depth];
      [pose proof (pretty_length level (VStr s)); lia|].
    cbn [json_dumps_pretty sort_keys].
    destruct (scan_json_str s rest) as [body [-> Hbody]].
    cbn [scan_once]. change (Ascii.eqb dquote dquote) with true.
    cbn iota. rewrite Hbody. reflexivity.
  - destruct l as [|x l].
    + destruct depth as [|depth]; [simpl in Hlen; lia | reflexivity].
    + destruct depth as [|depth]; [simpl in Hlen; lia|].
      rewrite pretty_list in *. cbn [sort_keys].
      set (J := join ("," ++ newline_indent (S level))
                  (map (json_dumps_pretty (S level)) (x :: l))) in *.
      cbn [append String.length] in Hlen. rewrite !length_append in Hlen.
      cbn [append]. rewrite !append_assoc.
      change ("]" ++ rest) with (String "]" rest).
      assert (Hbody : exists c r,
                 J ++ newline_indent level ++ String "]" rest = String c r /\
                 is_ws c = false /\ Ascii.eqb c "]" = false).
      { unfold J. cbn [map].
        destruct (join_head ("," ++ newline_indent (S level))
                    (json_dumps_pretty (S level) x)
                    (map (json_dumps_pretty (S level)) l)) as [t ->].
        destruct (pretty_head (S level) x) as [c [r [-> [Hws Hc]]]].
        eexists; eexists. split; [reflexivity | split; assumption]. }
      destruct Hbody as [c [r [Hbody [Hws Hc]]]].
      rewrite (scan_once_list_ws depth _ r c);
        [|rewrite skip_ws_newline_indent, Hbody; simpl; rewrite Hws;
          reflexivity | exact Hc].
      rewrite <- Hbody. unfold J.
      rewrite scan_elements_pretty; [reflexivity | discriminate | |].
      * rewrite Forall_forall in *. intros y Hy rest' Hrest'.
        apply (IH y Hy); [exact (proper_list _ _ Hp Hy) | | exact Hrest'].
        pose proof (join_length_part ("," ++ newline_indent (S level))
                      (json_dumps_pretty (S level) y)
                      (map (json_dumps_pretty (S level)) (x :: l))
                      (in_map _ _ _ Hy)).
        fold J in H. lia.
      * fold J. rewrite length_append.
        pose proof (join_length_count ("," ++ newline_indent (S level))
                      (map (json_dumps_pretty (S level)) (x :: l))) as Hc'.
        rewrite length_map in Hc'. fold J in Hc'.
        assert (Hall : Forall (fun p => 1 <= String.length p)
                         (map (json_dumps_pretty (S level)) (x :: l))).
        { rewrite Forall_forall. intros p Hin. apply in_map_iff in Hin.
          destruct Hin as [y [<- _]]. apply pretty_length. }
        specialize (Hc' Hall). lia.
  - destruct d as [|kv0 d].
    + destruct depth as [|depth]; [simpl in Hlen; lia | reflexivity].
    + destruct depth as [|depth]; [simpl in Hlen; lia|].
      destruct (proper_dict _ Hp) as [Hkeys Hvals].
      rewrite pretty_dict in *. cbn [sort_keys].
      rewrite (sort_items_map sort_keys (kv0 :: d)).
      set (member := fun kv : string * value =>
                       match kv with
                       | (k, y) =>
                           json_str k ++ ": " ++ json_dumps_pretty (S level) y
                       end) in *.
      set (sd := sort_items (kv0 :: d)) in *.
      assert (Hsd : sd <> []).
      { intros E. pose proof (sort_items_length (kv0 :: d)) as Hl.
        fold sd in Hl. rewrite E in Hl. discriminate. }
      set (J := join ("," ++ newline_indent (S level)) (map member sd)) in *.
      cbn [append String.length] in Hlen. rewrite !length_append in Hlen.
      cbn [append]. rewrite !append_assoc.
      change ("}" ++ rest) with (String "}" rest).
      assert (Hbody : exists r,
                 J ++ newline_indent level ++ String "}" rest
                 = String dquote r).
      { unfold J. destruct sd as [|[k y] sd']; [congruence|]. cbn [map].
        destruct (join_head ("," ++ newline_indent (S level))
                    (member (k, y)) (map member sd')) as [t ->].
        unfold member at 1. rewrite !append_assoc, json_str_append.
        eexists. reflexivity. }
      destruct Hbody as [r Hbody].
      rewrite (scan_once_dict_ws depth _ r);
        [|rewrite skip_ws_newline_indent, Hbody; reflexivity].
      rewrite <- Hbody. unfold J, member.
      rewrite scan_members_pretty.
      * rewrite dict_of_pairs_distinct; [reflexivity|].
        rewrite map_keys. unfold sd. rewrite sort_items_distinct.
        exact Hkeys.
      * exact Hsd.
      * rewrite Forall_forall in *. intros [k y] Hy rest' Hrest'.
        assert (Hin : In (k, y) (kv0 :: d)).
        { apply sort_items_In. exact Hy. }
        apply (IH (k, y) Hin); [exact (Hvals (k, y) Hin) | | exact Hrest'].
        pose proof (join_length_part ("," ++ newline_indent (S level))
                      (member (k, y)) (map member sd) (in_map member _ _ Hy))
          as Hl.
        fold J in Hl. unfold member at 1 in Hl.
        rewrite !length_append in Hl. simpl. lia.
      * fold member. fold J. rewrite length_append.
        pose proof (join_length_count ("," ++ newline_indent (S level))
                      (map member sd)) as Hc'.
        rewrite length_map in Hc'. fold J in Hc'.
        assert (Hall : Forall (fun p => 1 <= String.length p)
                         (map member sd)).
        { rewrite Forall_forall. intros p Hin. apply in_map_iff in Hin.
          destruct Hin as [[k y] [<- _]]. unfold member.
          rewrite json_str_append. simpl. lia. }
        specialize (Hc' Hall). lia.
Qed.

Lemma json_loads_pretty (v : value) :
  proper v = true -> json_loads (json_dumps_pretty 0 v) = Some (sort_keys v).
Proof.
  intros Hp. unfold json_loads.
  pose proof (skip_ws_pretty 0 v EmptyString) as Hs.
  pose proof (scan_once_pretty v Hp 0
                (S (String.length (json_dumps_pretty 0 v)))
                EmptyString ltac:(lia) eq_refl) as H.
  rewrite append_nil_r in *. rewrite Hs, H. reflexivity.
Qed.

(** *** Reports *)

Lemma method_read_sorted (m : MethodSecurity) :
  method_of_value (sort_keys (value_of_method m)) = Some m.
Proof. destruct m. reflexivity. Qed.

Lemma resource_read_sorted (r : Resource) :
  resource_of_value (sort_keys (value_of_resource r)) = Some r.
Proof.
  destruct r as [p ms].
  assert (H : all_some (map method_of_value
                          (map sort_keys (map value_of_method ms)))
              = Some ms).
  { rewrite (map_map value_of_method sort_keys).
    rewrite (all_some_map (fun m => sort_keys (value_of_method m))
               method_of_value (fun m => m)); [|apply method_read_sorted].
    rewrite map_id. reflexivity. }
  unfold resource_of_value, value_of_resource, list_of_value. simpl.
  rewrite H. reflexivity.
Qed.

Lemma strings_sorted (l : list string) : sort_keys (strings l) = strings l.
Proof.
  unfold strings. simpl. rewrite map_map. reflexivity.
Qed.

Lemma audit_read_sorted (a : ApiAudit) :
  audit_of_value (sort_keys (value_of_audit a)) = Some a.
Proof.
  destruct a as [i n ts rs].
  pose proof (strings_read_back ts) as Hs.
  pose proof (strings_sorted ts) as Hsorted.
  unfold list_of_value, strings in Hs. unfold strings in Hsorted.
  simpl in Hsorted. injection Hsorted as Hsorted.
  unfold audit_of_value, value_of_audit, list_of_value, strings.
  cbn [apiId a_name a_endpointTypes resources].
  destruct rs as [rs|]; simpl; rewrite Hsorted, Hs; [|reflexivity].
  rewrite (map_map value_of_resource sort_keys).
  rewrite (all_some_map (fun r => sort_keys (value_of_resource r))
             resource_of_value (fun r => r)); [|apply resource_read_sorted].
  rewrite map_id. reflexivity.
Qed.

Lemma report_read_sorted (r : AuditReport) :
  report_of_value (sort_keys (value_of_report r)) = Some r.
Proof.
  unfold report_of_value, value_of_report, list_of_value. simpl.
  rewrite (map_map value_of_audit sort_keys).
  rewrite (all_some_map (fun a => sort_keys (value_of_audit a))
             audit_of_value (fun a => a)); [|apply audit_read_sorted].
  rewrite map_id. reflexivity.
Qed.

(** X12.  What json-pretty mode prints for a report is one string that
    json.loads reads back as the report with the keys of every dict in
    sorted order (api_id, endpoint_type, name, resources; methods, path;
    api_key_required, authorization_type, method), and reading the records
    out of that value by key gives the report again, an absent 'resources'
    staying absent. *)
Theorem json_pretty_round_trip (r : AuditReport) :
  exists text v,
    run (print_audits "json-pretty" (value_of_report r)) = ([text], Ok tt) /\
    json_loads text = Some v /\
    v = sort_keys (value_of_report r) /\
    report_of_value v = Some r.
Proof.
  exists (json_dumps_pretty 0 (value_of_report r)),
         (sort_keys (value_of_report r)).
  split; [reflexivity|].
  split; [apply json_loads_pretty, proper_report|].
  split; [reflexivity | apply report_read_sorted].
Qed.

(** X13.  For a client whose responses are Python data, what json-pretty
    mode prints for a report that audit returned reads back with
    json.loads as that report with the keys of every dict sorted, whatever
    values the collaborator supplied. *)
Theorem audit_json_pretty_round_trip (apigw : client)
    (methods : option (list string)) (report : value) :
  proper_client apigw ->
  audit apigw methods = Ok report ->
  run (print_audits "json-pretty" report)
  = ([json_dumps_pretty 0 report], Ok tt) /\
  json_loads (json_dumps_pretty 0 report) = Some (sort_keys report).
Proof.
  intros Hc H. split; [reflexivity|].
  apply json_loads_pretty. exact (audit_proper apigw methods report Hc H).
Qed.

Lemma audit_json_pretty_round_trip_witness :
  exists report,
    audit loose_client None = Ok report /\
    json_loads (json_dumps_pretty 0 report) = Some (sort_keys report).
Proof.
  eexists. split; [reflexivity|].
  exact (proj2 (audit_json_pretty_round_trip loose_client None _
                  loose_client_proper eq_refl)).
Defined.

(** ** Nothing outside the filter is reported *)

Lemma forallb_flat_map {A B} (f : B -> bool) (g : A -> list B) (l : list A) :
  forallb f (flat_map g l) = forallb (fun x => forallb f (g x)) l.
Proof.
  induction l as [|x l IH]; simpl; [reflexivity|].
  rewrite forallb_app, IH. reflexivity.
Qed.

Lemma parse_method_within (ms : list string) (acc acc' : list value)
    (kv : string * value) :
  forallb (verb_in ms) acc = true ->
  parse_method (Some ms) acc kv = Ok acc' ->
  forallb (verb_in ms) acc' = true.
Proof.
  intros Hacc H. unfold parse_method in H.
  apply bind_ok in H. destruct H as [verb [_ H]].
  destruct (selected (Some ms) verb) eqn:Hsel; [|injection H as <-; exact Hacc].
  apply bind_ok in H. destruct H as [a [_ H]].
  apply bind_ok in H. destruct H as [k [_ H]].
  injection H as <-. rewrite forallb_snoc, Hacc.
  destruct (selected_only_str ms verb Hsel) as [v [-> Hin]]. simpl.
  apply existsb_exists. exists v.
  split; [exact Hin | apply String.eqb_refl].
Qed.

Lemma parse_resource_within (ms : list string) (resource out : value) :
  parse_resource (Some ms) resource = Ok out ->
  forallb (verb_in ms) (methods_of out) = true.
Proof.
  intros H. unfold parse_resource in H.
  apply bind_ok in H. destruct H as [p [_ H]].
  apply bind_ok in H. destruct H as [has [_ H]].
  apply bind_ok in H. destruct H as [parsed [Hparsed H]].
  assert (Hs : forallb (verb_in ms) parsed = true).
  { destruct has; [|injection Hparsed as <-; reflexivity].
    apply bind_ok in Hparsed. destruct Hparsed as [mapping [_ Hparsed]].
    apply bind_ok in Hparsed. destruct Hparsed as [es [_ Hparsed]].
    apply (for_each_invariant (fun acc => forallb (verb_in ms) acc = true)
             (parse_method (Some ms)) es) with (acc := []);
      [|reflexivity | exact Hparsed].
    intros acc x acc' _. apply parse_method_within. }
  destruct parsed as [|m l]; simpl in H; injection H as <-; [reflexivity|].
  exact Hs.
Qed.

Lemma audit_item_within (apigw : client) (ms : list string)
    (acc acc' : list value) (item : value) :
  forallb (verb_in ms) (report_methods (VList acc)) = true ->
  audit_item apigw (Some ms) acc item = Ok acc' ->
  forallb (verb_in ms) (report_methods (VList acc')) = true.
Proof.
  intros Hacc H. unfold audit_item in H.
  apply bind_ok in H. destruct H as [i [_ H]].
  apply bind_ok in H. destruct H as [n [_ H]].
  apply bind_ok in H. destruct H as [conf [_ H]].
  apply bind_ok in H. destruct H as [ts [_ H]].
  apply bind_ok in H. destruct H as [resp [_ H]].
  apply bind_ok in H. destruct H as [its [_ H]].
  apply bind_ok in H. destruct H as [d [Hd H]].
  injection H as <-. unfold report_methods in *.
  rewrite flat_map_app, forallb_app, Hacc. simpl. rewrite app_nil_r.
  destruct (truthy its); [|injection Hd as <-; reflexivity].
  apply bind_ok in Hd. destruct Hd as [seq [_ Hd]].
  apply bind_ok in Hd. destruct Hd as [rs [Hrs Hd]].
  assert (Hs : forallb (fun r => forallb (verb_in ms) (methods_of r)) rs = true).
  { apply (for_each_invariant
             (fun acc => forallb (fun r => forallb (verb_in ms) (methods_of r))
                           acc = true)
             (collect_resource (Some ms)) seq) with (acc := []);
      [|reflexivity | exact Hrs].
    intros a x a' _ Ha Hx. unfold collect_resource in Hx.
    apply bind_ok in Hx. destruct Hx as [out [Hout Hx]].
    pose proof (parse_resource_within ms x out Hout) as Hw.
    destruct out; injection Hx as <-; try exact Ha;
      rewrite forallb_snoc, Ha; exact Hw. }
  destruct rs as [|r rs]; injection Hd as <-; [reflexivity|].
  unfold resources_of. cbn [app lookup String.eqb Ascii.eqb Bool.eqb].
  simpl lookup. rewrite forallb_flat_map. exact Hs.
Qed.

(** X14.  Under a filter, whatever the client answers, every method of the
    report that audit returns has a str for its 'method' and that str is
    an element of the filter: no verb outside the filter is reported. *)
Theorem report_within_filter (apigw : client) (ms : list string)
    (report : value) :
  audit apigw (Some ms) = Ok report ->
  forallb (verb_in ms) (report_methods report) = true.
Proof.
  intros H. unfold audit in H.
  apply bind_ok in H. destruct H as [response [_ H]].
  apply bind_ok in H. destruct H as [api_items [_ H]].
  apply bind_ok in H. destruct H as [n [_ H]].
  apply bind_ok in H. destruct H as [seq [_ H]].
  apply bind_ok in H. destruct H as [ds [Hds H]].
  injection H as <-.
  apply (for_each_invariant
           (fun acc => forallb (verb_in ms) (report_methods (VList acc)) = true)
           (audit_item apigw (Some ms)) seq) with (acc := []);
    [|reflexivity | exact Hds].
  intros acc x acc' _. apply audit_item_within.
Qed.

Lemma report_within_filter_witness :
  forallb (verb_in ["POST"])
    (report_methods
       (VList [VDict [("api_id", VStr "a1"); ("name", VStr "Shop");
                      ("endpoint_type", VList [VStr "REGIONAL"]);
                      ("resources",
                       VList [VDict [("path", VStr "/items");
                                     ("methods",
                                      VList [VDict [("method", VStr "POST");
                                                    ("authorization_type", VStr "AWS_IAM");
                                                    ("api_key_required", VBool true)]])]])]]))
  = true.
Proof.
  exact (report_within_filter (client_of scenario_a) ["POST"] _ eq_refl).
Defined.

(** ** What is read of a response *)

(** X15.  parse_resource reads two keys of a resource, path and
    resourceMethods, and audit reads three keys of an API, id, name and
    endpointConfiguration: two resources, or two APIs, that agree on these
    keys give the same result, so the other keys API Gateway returns (id,
    parentId, pathPart, createdDate, ...) never influence the report. *)
Theorem other_keys_are_ignored :
  (forall (methods : option (list string)) (d d' : list (string * value)),
      lookup "path" d = lookup "path" d' ->
      lookup "resourceMethods" d = lookup "resourceMethods" d' ->
      parse_resource methods (VDict d) = parse_resource methods (VDict d')) /\
  (forall (apigw : client) (methods : option (list string))
          (acc : list value) (d d' : list (string * value)),
      lookup "id" d = lookup "id" d' ->
      lookup "name" d = lookup "name" d' ->
      lookup "endpointConfiguration" d = lookup "endpointConfiguration" d' ->
      audit_item apigw methods acc (VDict d)
      = audit_item apigw methods acc (VDict d')).
Proof.
  split.
  - intros methods d d' Hp Hm. unfold parse_resource. simpl.
    rewrite Hp, Hm. reflexivity.
  - intros apigw methods acc d d' Hi Hn Hc. unfold audit_item. simpl.
    rewrite Hi, Hn, Hc. reflexivity.
Qed.

Lemma other_keys_are_ignored_witness :
  parse_resource None
    (VDict [("id", VStr "abc123"); ("parentId", VStr "root0");
            ("pathPart", VStr "items"); ("path", VStr "/items")])
  = parse_resource None (VDict [("path", VStr "/items")]).
Proof.
  apply (proj1 other_keys_are_ignored); reflexivity.
Defined.

(** ** The endpoint types column *)

Lemma repr_plain_char (c : ascii) :
  plain c = true -> repr_char squote c = str1 c.
Proof.
  destruct c as [[] [] [] [] [] [] [] []]; try reflexivity; discriminate.
Qed.

Lemma plain_no_quote (s : string) :
  plain_string s = true -> has_char squote s = false.
Proof.
  unfold plain_string, has_char.
  induction (list_ascii_of_string s) as [|c l IH]; [reflexivity|].
  cbn [forallb existsb]. intros H. apply andb_prop in H.
  destruct H as [Hc Hl].
  rewrite (IH Hl), orb_false_r. unfold plain in Hc.
  rewrite (Ascii.eqb_sym squote c).
  destruct (Ascii.eqb c squote); [|reflexivity].
  destruct (printable c); discriminate.
Qed.

Lemma repr_plain_string (s : string) :
  plain_string s = true -> repr_str s = "'" ++ s ++ "'".
Proof.
  intros H. unfold repr_str, repr_quote.
  rewrite (plain_no_quote s H). simpl andb. cbv iota.
  change (str1 squote) with "'". f_equal.
  replace (String.concat EmptyString
             (map (repr_char squote) (list_ascii_of_string s))) with s;
    [reflexivity|].
  unfold plain_string in H. induction s as [|c s IH]; [reflexivity|].
  cbn [list_ascii_of_string map forallb] in *.
  apply andb_prop in H. destruct H as [Hc Hs].
  rewrite concat_chars, (repr_plain_char c Hc), <- (IH Hs). reflexivity.
Qed.

(** X16.  The third field of a csv line is the Python text of the list of
    endpoint types: for types made of printable characters without single
    quotes or backslashes it is the types between single quotes, separated by a
    comma and a space, between brackets; so an API with several endpoint
    types has commas inside that field. *)
Theorem csv_endpoint_types_field (a : ApiAudit) (r : Resource)
    (m : MethodSecurity) :
  forallb plain_string (a_endpointTypes a) = true ->
  csv_line (value_of_audit a) (value_of_resource r) (value_of_method m)
  = Ok (a_name a ++ "," ++ apiId a ++ ","
          ++ ("[" ++ join ", " (map (fun t => "'" ++ t ++ "'")
                                  (a_endpointTypes a)) ++ "]")
          ++ "," ++ r_path r ++ "," ++ ms_httpMethod m ++ ","
          ++ ms_authorizationType m ++ ","
          ++ (if ms_apiKeyRequired m then "True" else "False")).
Proof.
  intros H. rewrite csv_line_typed. unfold csv_row, strings.
  cbn [repr]. rewrite map_map.
  assert (E : map (fun t => repr (VStr t)) (a_endpointTypes a)
              = map (fun t => "'" ++ t ++ "'") (a_endpointTypes a)).
  { rewrite forallb_forall in H. apply map_ext_in. intros t Hin.
    apply repr_plain_string. exact (H t Hin). }
  rewrite E. reflexivity.
Qed.

Lemma csv_endpoint_types_field_witness :
  csv_line (value_of_audit comma_audit)
    (value_of_resource {| r_path := "/items"; r_methods := [] |})
    (value_of_method {| ms_httpMethod := "GET"; ms_authorizationType := "NONE";
                        ms_apiKeyRequired := false |})
  = Ok "Shop, Inc.,a1,['REGIONAL', 'EDGE'],/items,GET,NONE,False".
Proof.
  exact (csv_endpoint_types_field comma_audit
           {| r_path := "/items"; r_methods := [] |}
           {| ms_httpMethod := "GET"; ms_authorizationType := "NONE";
              ms_apiKeyRequired := false |} eq_refl).
Defined.
